(** * configdrift-scheduledconfigcheck: one check cycle of [main.py]

    A shallow embedding of [src/main.py].  The script runs a command,
    parses its output, loads a baseline document, compares both with
    DeepDiff and logs the verdict.  Everything the script obtains from
    outside (the sub-process, the file system, HTTP, the YAML and JSON
    parsers) is gathered in a record [Libraries]; every function of the
    script is a function over that record that returns its Python result
    together with the events (log records and library calls) it caused. *)

From Stdlib Require Import List String Ascii ZArith Bool Lia Permutation.
Import ListNotations.
Local Open Scope string_scope.
Local Open Scope list_scope.

(** ** Python strings: the three [str] methods the script uses *)

Module PyStr.

(** ASCII model of [str.lower()]. *)
Definition lower_ascii (c : ascii) : ascii :=
  let n := nat_of_ascii c in
  if andb (Nat.leb 65 n) (Nat.leb n 90) then ascii_of_nat (n + 32) else c.

Fixpoint lower (s : string) : string :=
  match s with
  | EmptyString => EmptyString
  | String c s' => String (lower_ascii c) (lower s')
  end.

Fixpoint rev_onto (s acc : string) : string :=
  match s with
  | EmptyString => acc
  | String c s' => rev_onto s' (String c acc)
  end.

Definition rev (s : string) : string := rev_onto s EmptyString.

(** [s.endswith(suffix)]: the reversed suffix starts the reversed [s]. *)
Definition endswith (s suffix : string) : bool :=
  String.prefix (rev suffix) (rev s).

(** A Python [str] is held as the bytes of its UTF-8 encoding.  The
    white-space characters that [str.strip()] removes are those of
    [str.isspace()], here by the length of their encoding.  One byte:
    U+0009 to U+000D, U+001C to U+001F and U+0020. *)
Definition is_space (c : ascii) : bool :=
  let n := nat_of_ascii c in
  orb (Nat.eqb n 32)
      (orb (andb (Nat.leb 9 n) (Nat.leb n 13))
           (andb (Nat.leb 28 n) (Nat.leb n 31))).

(** Two bytes: U+0085 (C2 85) and U+00A0 (C2 A0). *)
Definition is_space2 (c d : ascii) : bool :=
  andb (Nat.eqb (nat_of_ascii c) 194)
       (orb (Nat.eqb (nat_of_ascii d) 133) (Nat.eqb (nat_of_ascii d) 160)).

(** Three bytes: U+1680 (E1 9A 80), U+2000 to U+200A (E2 80 80 to
    E2 80 8A), U+2028, U+2029 and U+202F (E2 80 A8, A9, AF), U+205F
    (E2 81 9F) and U+3000 (E3 80 80). *)
Definition is_space3 (c d e : ascii) : bool :=
  let c := nat_of_ascii c in
  let d := nat_of_ascii d in
  let e := nat_of_ascii e in
  orb (andb (Nat.eqb c 225) (andb (Nat.eqb d 154) (Nat.eqb e 128)))
 (orb (andb (Nat.eqb c 226)
            (andb (Nat.eqb d 128)
                  (orb (andb (Nat.leb 128 e) (Nat.leb e 138))
                       (orb (Nat.eqb e 168)
                            (orb (Nat.eqb e 169) (Nat.eqb e 175))))))
 (orb (andb (Nat.eqb c 226) (andb (Nat.eqb d 129) (Nat.eqb e 159)))
      (andb (Nat.eqb c 227) (andb (Nat.eqb d 128) (Nat.eqb e 128))))).

Section Strip.
Variable one : ascii -> bool.
Variable two : ascii -> ascii -> bool.
Variable three : ascii -> ascii -> ascii -> bool.

(** The number of bytes of the white-space character at the head of [s];
    0 when there is none. *)
Definition space_width (s : string) : nat :=
  match s with
  | EmptyString => 0
  | String c s1 =>
      if one c then 1
      else match s1 with
           | EmptyString => 0
           | String d s2 =>
               if two c d then 2
               else match s2 with
                    | EmptyString => 0
                    | String e _ => if three c d e then 3 else 0
                    end
           end
  end.

(** Drops the white-space characters at the head of [s]. *)
Fixpoint lstrip_with (s : string) : string :=
  match s with
  | EmptyString => EmptyString
  | String c s1 =>
      if one c then lstrip_with s1
      else match s1 with
           | EmptyString => s
           | String d s2 =>
               if two c d then lstrip_with s2
               else match s2 with
                    | EmptyString => s
                    | String e s3 =>
                        if three c d e then lstrip_with s3 else s
                    end
           end
  end.
End Strip.

(** At the end of a text the bytes of a character are met last byte
    first. *)
Definition is_space2_back (d c : ascii) : bool := is_space2 c d.
Definition is_space3_back (e d c : ascii) : bool := is_space3 c d e.

Definition starts_with_space (s : string) : bool :=
  negb (Nat.eqb (space_width is_space is_space2 is_space3 s) 0).

Definition ends_with_space (s : string) : bool :=
  negb (Nat.eqb
          (space_width is_space is_space2_back is_space3_back (rev s)) 0).

Definition lstrip (s : string) : string :=
  lstrip_with is_space is_space2 is_space3 s.

Definition rstrip (s : string) : string :=
  rev (lstrip_with is_space is_space2_back is_space3_back (rev s)).

(** [s.strip()] *)
Definition strip (s : string) : string := rstrip (lstrip s).

(** Truth value of a Python [str]: only the empty string is false. *)
Definition truthy (s : string) : bool :=
  match s with EmptyString => false | String _ _ => true end.

End PyStr.

(** ** Python exceptions, by the classes the handlers of the script name *)

Inductive exn_class : Type :=
| CalledProcessError
| FileNotFoundError
| RequestException
| YAMLError
| JSONDecodeError
| OtherException.

Record exn : Type := mk_exn { exn_kind : exn_class; exn_text : string }.

Inductive outcome (A : Type) : Type :=
| Return (a : A)
| Raise (e : exn).
Arguments Return {A} a.
Arguments Raise {A} e.

(** ** Parsed documents *)

#[local] Set Warnings "-register-all".

Inductive ScalarValue : Type :=
| SStr (s : string)
| SInt (z : Z)
| SFloat (lexical : string)
| SBool (b : bool)
| SNull.

(** The Python objects that [yaml.safe_load] and [json.loads] return, in
    the shape of the CanonicalNode of section 3 of the spec: scalars,
    [dict] and [list].  [Scalar SNull] is Python's [None]; a float is kept
    in its lexical form. *)
Inductive CanonicalNode : Type :=
| Scalar (v : ScalarValue)
| Mapping (entries : list (string * CanonicalNode))
| Sequence (items : list CanonicalNode).

Definition PyNone : CanonicalNode := Scalar SNull.

(** [x is None] *)
Definition is_None (x : CanonicalNode) : bool :=
  match x with
  | Scalar SNull => true
  | _ => false
  end.

Definition scalar_eqb (x y : ScalarValue) : bool :=
  match x, y with
  | SStr a, SStr b => String.eqb a b
  | SInt a, SInt b => Z.eqb a b
  | SFloat a, SFloat b => String.eqb a b
  | SBool a, SBool b => Bool.eqb a b
  | SNull, SNull => true
  | _, _ => false
  end.

(** ** Multisets as lists, over a matching test

    Modelled from the spec: step 3 of section 4.2 (part of DeepDiff, absent
    from src/), where matched items are removed from both sides and the
    rest of each side is reported. *)

Section Cancel.
Context {A : Type} (same : A -> A -> bool).

(** Removes from [l] the first item that [x] matches. *)
Fixpoint extract (x : A) (l : list A) : option (list A) :=
  match l with
  | [] => None
  | y :: l' =>
      if same x y then Some l'
      else match extract x l' with
           | Some r => Some (y :: r)
           | None => None
           end
  end.

(** Removes matching items from both sides; what is left of each. *)
Fixpoint cancel (bs cs : list A) : list A * list A :=
  match bs with
  | [] => ([], cs)
  | x :: bs' =>
      match extract x cs with
      | Some cs' => cancel bs' cs'
      | None => let (r, a) := cancel bs' cs in (x :: r, a)
      end
  end.

Definition same_multiset (bs cs : list A) : bool :=
  match cancel bs cs with
  | ([], []) => true
  | _ => false
  end.

(** [l] and [r] can be paired off, each item with one it matches. *)
Definition pairing (l r : list A) : Prop :=
  exists r', Forall2 (fun x y => same x y = true) l r' /\ Permutation r' r.

(** Matching at [x] closes the square: the one property of an
    equivalence that greedy cancelling needs. *)
Definition closes (x : A) : Prop :=
  forall x' y y',
    same x y = true -> same x' y = true -> same x' y' = true ->
    same x y' = true.
End Cancel.

(** ** The diff engine

    Modelled from the spec: DiffEntry and its kinds are those of section 3;
    the path is the sequence of the mapping keys above the entry. *)

Inductive DiffKind : Type :=
| ValueChanged | TypeChanged | KeyAdded | KeyRemoved | ItemAdded | ItemRemoved.

Record DiffEntry : Type := mk_entry {
  path : list string;
  kind : DiffKind;
  oldValue : option CanonicalNode;
  newValue : option CanonicalNode
}.

Fixpoint lookup (k : string) (entries : list (string * CanonicalNode))
  : option CanonicalNode :=
  match entries with
  | [] => None
  | (k', v) :: rest => if String.eqb k k' then Some v else lookup k rest
  end.

(** Modelled from the spec: the equality of two items of a sequence, which
    decides whether DeepDiff (absent from src/) reports them.  Section 4.2
    step 3 matches items whose full canonical form is the same, by
    structural equality; section 3 has the order of a sequence ignored in
    comparison (a multiset) and the insertion order of a mapping
    irrelevant, and step 1 keeps scalars of different logical type
    apart. *)
Fixpoint canonical_eqb (a b : CanonicalNode) {struct a} : bool :=
  match a, b with
  | Scalar x, Scalar y => scalar_eqb x y
  | Mapping ea, Mapping eb =>
      same_multiset
        (fun e e' => andb (String.eqb (fst e) (fst e'))
                          (canonical_eqb (snd e) (snd e')))
        ea eb
  | Sequence ia, Sequence ib => same_multiset canonical_eqb ia ib
  | _, _ => false
  end.

(** The test [canonical_eqb] applies to the entries of two mappings. *)
Definition entry_eqb (e e' : string * CanonicalNode) : bool :=
  andb (String.eqb (fst e) (fst e')) (canonical_eqb (snd e) (snd e')).

(** Modelled from the spec: the second half of step 2 of section 4.2, the
    keys that only the current mapping has, in the current mapping's
    order. *)
Definition keys_added (p : list string)
    (eb ec : list (string * CanonicalNode)) : list DiffEntry :=
  flat_map
    (fun e => match lookup (fst e) eb with
              | Some _ => []
              | None => [mk_entry (p ++ [fst e]) KeyAdded None (Some (snd e))]
              end)
    ec.

(** Modelled from the spec: the recursive comparison of section 4.2, which
    stands for the DeepDiff library (absent from src/).  Step 1: two scalars
    give nothing when equal and ValueChanged otherwise.  Step 2: the keys of
    the baseline mapping in their order, then the keys only the current
    mapping has; a key of both recurses with the key appended to the path,
    a key of the baseline alone is KeyRemoved, a key of the current alone is
    KeyAdded.  Step 3: two sequences are compared as multisets; matched
    items are dropped from both, what is left of the baseline is
    ItemRemoved and what is left of the current is ItemAdded, at the path
    of the sequence.  Steps 1 and 4: any other pair is one TypeChanged. *)
Fixpoint compare_at (p : list string) (b c : CanonicalNode) {struct b}
  : list DiffEntry :=
  match b, c with
  | Scalar x, Scalar y =>
      if scalar_eqb x y then []
      else [mk_entry p ValueChanged (Some b) (Some c)]
  | Mapping eb, Mapping ec =>
      flat_map
        (fun e => match lookup (fst e) ec with
                  | Some v' => compare_at (p ++ [fst e]) (snd e) v'
                  | None => [mk_entry (p ++ [fst e]) KeyRemoved
                                      (Some (snd e)) None]
                  end)
        eb
      ++ keys_added p eb ec
  | Sequence ib, Sequence ic =>
      let (removed, added) := cancel canonical_eqb ib ic in
      map (fun x => mk_entry p ItemRemoved (Some x) None) removed
      ++ map (fun y => mk_entry p ItemAdded None (Some y)) added
  | _, _ => [mk_entry p TypeChanged (Some b) (Some c)]
  end.

(** Modelled from the spec: [DeepDiff(baseline, current_config,
    ignore_order=True)] of line 136 is the comparison of section 4.2 from
    the empty path. *)
Definition DeepDiff (baseline current_config : CanonicalNode)
  : list DiffEntry :=
  compare_at [] baseline current_config.

(** Modelled from the spec: a well-formed tree, section 3; the keys of
    every mapping are unique. *)
Fixpoint well_formed (t : CanonicalNode) : Prop :=
  match t with
  | Scalar _ => True
  | Mapping es =>
      NoDup (map fst es)
      /\ (fix all (l : list (string * CanonicalNode)) : Prop :=
            match l with
            | [] => True
            | e :: l' => well_formed (snd e) /\ all l'
            end) es
  | Sequence items =>
      (fix all (l : list CanonicalNode) : Prop :=
         match l with
         | [] => True
         | x :: l' => well_formed x /\ all l'
         end) items
  end.

(** ** Effects: the log and the calls to libraries *)

Inductive level : Type := INFO | WARNING | ERROR.

Inductive event : Type :=
| Log (l : level) (message : string)
| Popen (command : string)
| OpenRead (file : string)
| RequestsGet (url : string)
| YamlSafeLoad (text : string)
| JsonLoads (text : string)
| DeepDiffCall (baseline current_config : CanonicalNode)
| JsonDump (file : string) (differences : list DiffEntry).

(** A finished sub-process: [process.returncode], [output.decode()] and
    [error.decode()]; a decoded text is held as its UTF-8 bytes. *)
Record completed : Type := mk_completed {
  returncode : Z;
  stdout_decode : outcome string;
  stderr_decode : outcome string
}.

(** What the script gets from outside. *)
Record Libraries : Type := mk_libraries {
  (* subprocess.Popen(command, shell=True, ...) and communicate() *)
  popen_communicate : string -> outcome completed;
  (* open(path, 'r') and read() *)
  open_read : string -> outcome string;
  (* requests.get(url), raise_for_status() and .text *)
  requests_get : string -> outcome string;
  yaml_safe_load : string -> outcome CanonicalNode;
  json_loads : string -> outcome CanonicalNode;
  (* open(path, 'w') and json.dump(differences, f, indent=4) *)
  json_dump : string -> list DiffEntry -> outcome unit;
  (* str(differences), for the f-string of the log *)
  str_differences : list DiffEntry -> string
}.

(** A computation: the events it caused, in order, and its result. *)
Definition M (A : Type) : Type := (list event * A)%type.

Definition ret {A : Type} (a : A) : M A := ([], a).

Definition events {A : Type} (m : M A) : list event := fst m.
Definition result {A : Type} (m : M A) : A := snd m.

Definition bind {A B : Type} (m : M A) (k : A -> M B) : M B :=
  (events m ++ events (k (result m)), result (k (result m))).

Notation "x <- m ;; k" := (bind m (fun x => k))
  (at level 61, m at next level, right associativity).
Notation "m ;; k" := (bind m (fun _ => k))
  (at level 61, right associativity).

(** A call to a library: the call is recorded, the outcome handed back. *)
Definition call {A : Type} (e : event) (o : outcome A) : M (outcome A) :=
  ([e], o).

Definition logging_info (message : string) : M unit :=
  ([Log INFO message], tt).
Definition logging_warning (message : string) : M unit :=
  ([Log WARNING message], tt).
Definition logging_error (message : string) : M unit :=
  ([Log ERROR message], tt).

(** ** The script *)

Section Script.
Variable lib : Libraries.

(** [is_valid_interval]: [None] stands for the raised ValueError. *)
Definition is_valid_interval (interval : Z) : option bool :=
  if (interval <? 10)%Z then None else Some true.

Definition run_command_except (e : exn) : M (option string) :=
  match exn_kind e with
  | CalledProcessError =>
      logging_error ("Command execution failed: " ++ exn_text e) ;;
      ret None
  | _ =>
      logging_error ("An unexpected error occurred: " ++ exn_text e) ;;
      ret None
  end.

Definition run_command (command : string) : M (option string) :=
  p <- call (Popen command) (popen_communicate lib command) ;;
  match p with
  | Raise e => run_command_except e
  | Return process =>
      if negb (returncode process =? 0)%Z then
        match stderr_decode process with
        | Raise e => run_command_except e
        | Return error =>
            logging_error
              ("Command execution failed with error: " ++ error) ;;
            ret None
        end
      else
        match stdout_decode process with
        | Raise e => run_command_except e
        | Return output => ret (Some (PyStr.strip output))
        end
  end.

(** The handlers of [load_baseline], in the order of the source. *)
Definition load_baseline_except (baseline_path : string) (e : exn)
  : M CanonicalNode :=
  match exn_kind e with
  | FileNotFoundError =>
      logging_error ("Baseline file not found: " ++ baseline_path) ;;
      ret PyNone
  | RequestException =>
      logging_error ("Error fetching baseline from URL: " ++ exn_text e) ;;
      ret PyNone
  | YAMLError =>
      logging_error ("Error parsing YAML: " ++ exn_text e) ;;
      ret PyNone
  | JSONDecodeError =>
      logging_error ("Error parsing JSON: " ++ exn_text e) ;;
      ret PyNone
  | _ =>
      logging_error
        ("An unexpected error occurred while loading the baseline: "
         ++ exn_text e) ;;
      ret PyNone
  end.

(** Lines 88-94: the format when none is given. *)
Definition format_of_path (baseline_path : string) : string :=
  if orb (PyStr.endswith (PyStr.lower baseline_path) ".yaml")
         (PyStr.endswith (PyStr.lower baseline_path) ".yml")
  then "yaml"
  else if PyStr.endswith (PyStr.lower baseline_path) ".json"
  then "json"
  else "yaml".

Definition load_baseline (baseline_path : string) (format : option string)
    (remote : bool) : M CanonicalNode :=
  c <- (if remote
        then call (RequestsGet baseline_path)
                  (requests_get lib baseline_path)
        else call (OpenRead baseline_path) (open_read lib baseline_path)) ;;
  match c with
  | Raise e => load_baseline_except baseline_path e
  | Return content =>
      let format :=
        match format with
        | None => format_of_path baseline_path
        | Some f => f
        end in
      if String.eqb format "yaml" then
        r <- call (YamlSafeLoad content) (yaml_safe_load lib content) ;;
        match r with
        | Return v => ret v
        | Raise e => load_baseline_except baseline_path e
        end
      else if String.eqb format "json" then
        r <- call (JsonLoads content) (json_loads lib content) ;;
        match r with
        | Return v => ret v
        | Raise e => load_baseline_except baseline_path e
        end
      else
        logging_error ("Unsupported format: " ++ format) ;;
        ret PyNone
  end.

(** [DeepDiff] is total here, so the handler of the source has nothing to
    catch. *)
Definition compare_configurations (baseline current_config : CanonicalNode)
  : M (option (list DiffEntry)) :=
  if orb (is_None baseline) (is_None current_config) then ret None
  else ([DeepDiffCall baseline current_config],
        Some (DeepDiff baseline current_config)).

Definition save_differences (differences : list DiffEntry)
    (output_path : string) : M unit :=
  r <- call (JsonDump output_path differences)
            (json_dump lib output_path differences) ;;
  match r with
  | Return _ => logging_info ("Differences saved to: " ++ output_path)
  | Raise e =>
      logging_error ("Error saving differences to file: " ++ exn_text e)
  end.

(** The outer handlers of [format_output]. *)
Definition format_output_except (e : exn) : M CanonicalNode :=
  match exn_kind e with
  | YAMLError =>
      logging_error ("Error parsing YAML: " ++ exn_text e) ;;
      ret PyNone
  | JSONDecodeError =>
      logging_error ("Error parsing JSON: " ++ exn_text e) ;;
      ret PyNone
  | _ =>
      logging_error
        ("An unexpected error occurred while loading the baseline: "
         ++ exn_text e) ;;
      ret PyNone
  end.

Definition autodetect_failed : string :=
  "Could not autodetect the configuration format (YAML or JSON), and no format specified.  Returning None.".

(** [format == name], where [format] is a [str] or [None]. *)
Definition format_is (format : option string) (name : string) : bool :=
  match format with
  | Some f => String.eqb f name
  | None => false
  end.

(** Lines 176-184: the inner [try] of the autodetection. *)
Definition autodetect (config_string : string) : M CanonicalNode :=
  r <- call (YamlSafeLoad config_string)
            (yaml_safe_load lib config_string) ;;
  match r with
  | Return v => ret v
  | Raise e =>
      match exn_kind e with
      | YAMLError =>
          r' <- call (JsonLoads config_string)
                     (json_loads lib config_string) ;;
          match r' with
          | Return v => ret v
          | Raise e' =>
              match exn_kind e' with
              | JSONDecodeError =>
                  logging_error autodetect_failed ;;
                  ret PyNone
              | _ => format_output_except e'
              end
          end
      | _ => format_output_except e
      end
  end.

Definition format_output (config_string : string) (format : option string)
  : M CanonicalNode :=
  if format_is format "yaml" then
    r <- call (YamlSafeLoad config_string)
              (yaml_safe_load lib config_string) ;;
    match r with
    | Return v => ret v
    | Raise e => format_output_except e
    end
  else if format_is format "json" then
    r <- call (JsonLoads config_string)
              (json_loads lib config_string) ;;
    match r with
    | Return v => ret v
    | Raise e => format_output_except e
    end
  else autodetect config_string.

(** Truth value of [format] and of [output_path]: a [str] or [None]. *)
Definition truthy_opt (s : option string) : bool :=
  match s with
  | Some s' => PyStr.truthy s'
  | None => false
  end.

Definition check_configuration (command baseline_path : string)
    (output_path format : option string) (remote : bool) : M unit :=
  logging_info "Running configuration check..." ;;
  current_config_string <- run_command command ;;
  match current_config_string with
  | None =>
      logging_error "Failed to retrieve current configuration. Aborting."
  | Some current_config_string =>
      current_config <-
        (if truthy_opt format
         then format_output current_config_string format
         else format_output current_config_string None) ;;
      if is_None current_config then
        logging_error "Failed to parse current configuration. Aborting"
      else
        baseline <- load_baseline baseline_path format remote ;;
        if is_None baseline then
          logging_error "Failed to load baseline configuration. Aborting."
        else
          differences <- compare_configurations baseline current_config ;;
          match differences with
          | Some (d :: ds) =>
              logging_warning "Configuration drift detected!" ;;
              logging_info
                ("Differences: " ++ str_differences lib (d :: ds)) ;;
              match output_path with
              | Some file =>
                  if PyStr.truthy file
                  then save_differences (d :: ds) file
                  else ret tt
              | None => ret tt
              end
          | _ => logging_info "No configuration drift detected."
          end
  end.

End Script.

(** Trees that are the same except for the order of the items of their
    sequences. *)
Inductive reorder : CanonicalNode -> CanonicalNode -> Prop :=
| reorder_scalar : forall v, reorder (Scalar v) (Scalar v)
| reorder_mapping : forall ea eb,
    Forall2 (fun e e' => fst e = fst e' /\ reorder (snd e) (snd e')) ea eb ->
    reorder (Mapping ea) (Mapping eb)
| reorder_sequence : forall ia ib ic,
    Forall2 reorder ia ib ->
    Permutation ib ic ->
    reorder (Sequence ia) (Sequence ic).

(** ** What a cycle leaves in the log *)

Definition command_failure : event :=
  Log ERROR "Failed to retrieve current configuration. Aborting.".
Definition parse_failure : event :=
  Log ERROR "Failed to parse current configuration. Aborting".
Definition baseline_failure : event :=
  Log ERROR "Failed to load baseline configuration. Aborting.".
Definition drift_detected : event :=
  Log WARNING "Configuration drift detected!".
Definition no_drift : event :=
  Log INFO "No configuration drift detected.".

Definition is_parser_call (e : event) : bool :=
  match e with
  | YamlSafeLoad _ | JsonLoads _ => true
  | _ => false
  end.

Definition is_baseline_read (e : event) : bool :=
  match e with
  | OpenRead _ | RequestsGet _ => true
  | _ => false
  end.

Definition is_comparison (e : event) : bool :=
  match e with
  | DeepDiffCall _ _ => true
  | _ => false
  end.

Definition is_yaml_call (e : event) : bool :=
  match e with
  | YamlSafeLoad _ => true
  | _ => false
  end.

Definition is_json_call (e : event) : bool :=
  match e with
  | JsonLoads _ => true
  | _ => false
  end.

(** The events of the three stages before the comparison: calls to the
    sub-process, the sources and the parsers, and error records other than
    the three with which [check_configuration] gives up. *)
Definition is_stage_event (e : event) : bool :=
  match e with
  | Log ERROR message => negb (String.prefix "Failed to " message)
  | Popen _ | OpenRead _ | RequestsGet _
  | YamlSafeLoad _ | JsonLoads _ => true
  | _ => false
  end.

(** What a parser that is given no second chance hands back. *)
Definition strict_result (o : outcome CanonicalNode) : CanonicalNode :=
  match o with
  | Return v => v
  | Raise _ => PyNone
  end.

(** The text is a document of value [v] for the parser that [format]
    selects in [format_output]. *)
Definition parses_to (lib : Libraries) (format : option string)
    (text : string) (v : CanonicalNode) : Prop :=
  if format_is format "yaml" then yaml_safe_load lib text = Return v
  else if format_is format "json" then json_loads lib text = Return v
  else yaml_safe_load lib text = Return v
       \/ ((exists e, yaml_safe_load lib text = Raise e
                      /\ exn_kind e = YAMLError)
           /\ json_loads lib text = Return v).

(** The text is no document for any parser that [format] selects. *)
Definition unparseable (lib : Libraries) (format : option string)
    (text : string) : Prop :=
  if format_is format "yaml" then exists e, yaml_safe_load lib text = Raise e
  else if format_is format "json" then exists e, json_loads lib text = Raise e
  else exists e, yaml_safe_load lib text = Raise e
                 /\ (exn_kind e = YAMLError ->
                     exists e', json_loads lib text = Raise e').

(** ** A sample of the outside world

    A handful of commands, files and documents, with what PyYAML and the
    json module answer on each of these documents.  Any other document is
    reported as malformed; only the listed ones are used below. *)

Module Sample.

Definition newline : string := String "010"%char EmptyString.

Definition items (l : list Z) : CanonicalNode :=
  Mapping [("items", Sequence (map (fun z => Scalar (SInt z)) l))].

Definition exit_ok (output : string) : outcome completed :=
  Return (mk_completed 0 (Return output) (Return EmptyString)).

Definition popen_communicate (command : string) : outcome completed :=
  if command =? "cat /etc/app/config.yaml"
  then exit_ok ("items: [1, 2, 3]" ++ newline)
  else if command =? "cat /etc/app/changed.yaml"
  then exit_ok ("items: [1, 3]" ++ newline)
  else if command =? "cat /etc/hostname"
  then exit_ok ("web01" ++ newline)
  else if command =? "cat /etc/app/broken.yaml"
  then exit_ok ("{" ++ newline)
  else if command =? "cat /etc/app/empty.yaml"
  then exit_ok EmptyString
  else if command =? "cat /etc/app/null.yaml"
  then exit_ok ("null" ++ newline)
  else Return (mk_completed 1 (Return EmptyString)
                 (Return "cat: No such file or directory")).

Definition open_read (file : string) : outcome string :=
  if file =? "baseline.yaml" then Return "items: [3, 2, 1]"
  else if file =? "baseline.json" then Return "a: 1"
  else if file =? "hostname.yaml" then Return "web01"
  else Raise (mk_exn FileNotFoundError
                "[Errno 2] No such file or directory").

Definition requests_get (url : string) : outcome string :=
  Raise (mk_exn RequestException "Connection refused").

Definition yaml_safe_load (text : string) : outcome CanonicalNode :=
  if text =? "items: [1, 2, 3]" then Return (items [1; 2; 3]%Z)
  else if text =? "items: [3, 2, 1]" then Return (items [3; 2; 1]%Z)
  else if text =? "items: [1, 3]" then Return (items [1; 3]%Z)
  else if text =? "a: 1" then Return (Mapping [("a", Scalar (SInt 1))])
  else if text =? "web01" then Return (Scalar (SStr "web01"))
  else if text =? "42" then Return (Scalar (SInt 42))
  else if text =? "null" then Return PyNone
  else if text =? "~" then Return PyNone
  else if text =? EmptyString then Return PyNone
  else Raise (mk_exn YAMLError
                "while parsing a flow node: expected the node content").

Definition json_loads (text : string) : outcome CanonicalNode :=
  if text =? "null" then Return PyNone
  else if text =? "42" then Return (Scalar (SInt 42))
  else if text =? "{"
  then Raise (mk_exn JSONDecodeError
                "Expecting property name enclosed in double quotes")
  else Raise (mk_exn JSONDecodeError
                "Expecting value: line 1 column 1 (char 0)").

Definition json_dump (file : string) (differences : list DiffEntry)
  : outcome unit :=
  Return tt.

Definition str_differences (differences : list DiffEntry) : string :=
  "{...}".

Definition libraries : Libraries :=
  mk_libraries popen_communicate open_read requests_get
               yaml_safe_load json_loads json_dump str_differences.

End Sample.

(** ** Three sentences of the specification, as they are written *)

(** With no format given and a source name in [.json], a baseline that is
    valid YAML and not valid JSON still loads. *)
Definition auto_fallback_as_stated : Prop :=
  forall lib baseline_path content v e,
    PyStr.endswith baseline_path ".json" = true ->
    open_read lib baseline_path = Return content ->
    yaml_safe_load lib content = Return v ->
    is_None v = false ->
    json_loads lib content = Raise e ->
    exn_kind e = JSONDecodeError ->
    is_None (result (load_baseline lib baseline_path None false)) = false.

(** With no format given, a text that the YAML parser reads as a scalar is
    returned as that scalar, and a cycle whose command gives that text
    records no parse failure. *)
Definition bare_scalar_as_stated : Prop :=
  forall lib command baseline_path output_path remote text v,
    yaml_safe_load lib text = Return (Scalar v) ->
    result (run_command lib command) = Some text ->
    result (format_output lib text None) = Scalar v
    /\ ~ In parse_failure
            (events (check_configuration lib command baseline_path
                       output_path None remote)).

(** Whenever the command gave its text and the baseline does not load, the
    cycle ends on the baseline failure, before any comparison. *)
Definition baseline_failure_as_stated : Prop :=
  forall lib command baseline_path output_path format remote text,
    result (run_command lib command) = Some text ->
    is_None (result (load_baseline lib baseline_path format remote)) = true ->
    let evs := events (check_configuration lib command baseline_path
                         output_path format remote) in
    In baseline_failure evs
    /\ forall e, In e evs -> is_comparison e = false.

(** ** Counting the events of one kind *)

Definition count (p : event -> bool) (l : list event) : nat :=
  List.length (filter p l).

Definition is_popen (e : event) : bool :=
  match e with
  | Popen _ => true
  | _ => false
  end.

Definition is_json_dump (e : event) : bool :=
  match e with
  | JsonDump _ _ => true
  | _ => false
  end.

Definition is_error_log (e : event) : bool :=
  match e with
  | Log ERROR _ => true
  | _ => false
  end.

(** The record with which every cycle opens. *)
Definition is_cycle_start (e : event) : bool :=
  match e with
  | Log INFO message => String.eqb message "Running configuration check..."
  | _ => false
  end.

(** ** Induction over parsed documents *)

Section NodeInduction.
Variable P : CanonicalNode -> Prop.
Hypothesis P_scalar : forall v, P (Scalar v).
Hypothesis P_mapping :
  forall es, Forall (fun e => P (snd e)) es -> P (Mapping es).
Hypothesis P_sequence : forall items, Forall P items -> P (Sequence items).

Fixpoint node_induction (t : CanonicalNode) : P t :=
  match t with
  | Scalar v => P_scalar v
  | Mapping es =>
      P_mapping es
        ((fix all (l : list (string * CanonicalNode))
            : Forall (fun e => P (snd e)) l :=
            match l with
            | [] => Forall_nil _
            | e :: l' => Forall_cons e (node_induction (snd e)) (all l')
            end) es)
  | Sequence items =>
      P_sequence items
        ((fix all (l : list CanonicalNode) : Forall P l :=
            match l with
            | [] => Forall_nil _
            | x :: l' => Forall_cons x (node_induction x) (all l')
            end) items)
  end.
End NodeInduction.

(** * Facts *)

(** ** Cancelling finds a pairing whenever there is one *)

Section CancelFacts.
Context {A : Type} (same : A -> A -> bool).

Lemma extract_some x r rest :
  extract same x r = Some rest ->
  exists y, same x y = true /\ Permutation (y :: rest) r.
Proof.
  revert rest; induction r as [|y r IH]; simpl; intros rest H.
  - discriminate.
  - destruct (same x y) eqn:E.
    + injection H as <-. exists y; split; [assumption | reflexivity].
    + destruct (extract same x r) as [r0|]; [|discriminate].
      injection H as <-.
      destruct (IH r0 eq_refl) as (y0 & Hy & Hp).
      exists y0; split; [assumption|].
      rewrite perm_swap. now apply perm_skip.
Qed.

Lemma extract_found x r y :
  In y r -> same x y = true -> exists rest, extract same x r = Some rest.
Proof.
  induction r as [|z r IH]; simpl; intros Hin Hy; [contradiction|].
  destruct (same x z) eqn:E; [eauto|].
  destruct Hin as [->|Hin]; [congruence|].
  destruct (IH Hin Hy) as (rest & ->). eauto.
Qed.

Lemma cancel_sound l : forall r,
  cancel same l r = ([], []) -> pairing same l r.
Proof.
  induction l as [|x l IH]; simpl; intros r H.
  - injection H as ->. exists []; split; constructor.
  - destruct (extract same x r) as [rest|] eqn:E.
    + destruct (extract_some _ _ _ E) as (y & Hy & Hp).
      destruct (IH _ H) as (r' & HF & Hp').
      exists (y :: r'); split; [now constructor|].
      now rewrite Hp'.
    + destruct (cancel same l r); discriminate.
Qed.

Lemma cancel_complete l : forall r,
  Forall (closes same) l -> pairing same l r -> cancel same l r = ([], []).
Proof.
  induction l as [|x l IH]; intros r Hc (r' & HF & Hp).
  - inversion HF; subst. apply Permutation_nil in Hp; now subst.
  - inversion HF as [|x0 y0 l0 r0 Hxy HF']; subst.
    inversion Hc as [|x1 l1 Hcx Hcl]; subst.
    assert (Hin : In y0 r)
      by (eapply Permutation_in; [exact Hp | now left]).
    destruct (extract_found x r y0 Hin Hxy) as (rest & E).
    simpl; rewrite E.
    destruct (extract_some _ _ _ E) as (y1 & Hxy1 & Hp1).
    apply IH; [assumption|].
    assert (Hp2 : Permutation (y0 :: r0) (y1 :: rest))
      by (now rewrite Hp, Hp1).
    assert (Hin1 : In y1 (y0 :: r0))
      by (eapply Permutation_in;
          [symmetry; exact Hp2 | now left]).
    destruct Hin1 as [->|Hin1].
    + exists r0; split; [assumption|].
      now apply Permutation_cons_inv in Hp2.
    + destruct (in_split _ _ Hin1) as (s1 & s2 & ->).
      apply Forall2_app_inv_r in HF'.
      destruct HF' as (l1 & l2' & HF1 & HF2 & ->).
      inversion HF2 as [|x1 y1' l2 s2' Hx1 HF3]; subst.
      exists (s1 ++ y0 :: s2); split.
      * apply Forall2_app; [assumption|].
        constructor; [|assumption].
        apply Forall_app in Hcl; destruct Hcl as [_ Hcl].
        inversion Hcl as [|? ? Hcx1 _]; subst.
        apply (Hcx1 x y1 y0); assumption.
      * apply Permutation_cons_inv with (a := y1).
        rewrite <- Hp2.
        transitivity (y1 :: y0 :: s1 ++ s2).
        { apply perm_skip. symmetry. apply Permutation_middle. }
        rewrite perm_swap. apply perm_skip. apply Permutation_middle.
Qed.

Lemma cancel_refl l :
  Forall (fun x => same x x = true) l -> cancel same l l = ([], []).
Proof.
  induction 1 as [|x l Hx _ IH]; simpl; [reflexivity|].
  now rewrite Hx.
Qed.

Lemma Forall2_along_perm (R : A -> A -> Prop) l r :
  Forall2 R l r -> forall r', Permutation r r' ->
  exists l', Permutation l l' /\ Forall2 R l' r'.
Proof.
  intros HF r' Hp; revert l HF.
  induction Hp as [|y r r' Hp IH|y z r|r r1 r2 Hp1 IH1 Hp2 IH2];
    intros l HF.
  - inversion HF; subst. exists []; split; constructor.
  - inversion HF as [|x ? l0 ? Hxy HF']; subst.
    destruct (IH _ HF') as (l' & Hl & HF'').
    exists (x :: l'); split; [now apply perm_skip | now constructor].
  - inversion HF as [|x ? l0 ? Hxy HF']; subst.
    inversion HF' as [|x' ? l1 ? Hxy' HF'']; subst.
    exists (x' :: x :: l1); split; [apply perm_swap|].
    repeat constructor; assumption.
  - destruct (IH1 _ HF) as (l1 & Hl1 & HF1).
    destruct (IH2 _ HF1) as (l2 & Hl2 & HF2).
    exists l2; split; [now rewrite Hl1 | assumption].
Qed.

(** Three pairings around a square give the fourth. *)
Lemma pairing_closes l l' r r' :
  Forall (closes same) l ->
  pairing same l r -> pairing same l' r -> pairing same l' r' ->
  pairing same l r'.
Proof.
  intros Hc (r1 & HF1 & Hp1) (r2 & HF2 & Hp2) (r3 & HF3 & Hp3).
  (* l ~ r1, l' ~ r2, l' ~ r3, with r1, r2 permutations of r *)
  assert (Hp12 : Permutation r2 r1) by (now rewrite Hp2, Hp1).
  destruct (Forall2_along_perm _ _ _ HF2 _ Hp12) as (l1 & Hl1 & HF2').
  (* l1 is l' reordered so that it faces r1 *)
  apply Forall2_flip in HF3.
  destruct (Forall2_along_perm _ _ _ HF3 _ Hl1) as (r4 & Hr4 & HF3').
  exists r4; split; [|now rewrite <- Hr4].
  clear - Hc HF1 HF2' HF3'.
  revert l1 r4 HF2' HF3'.
  induction HF1 as [|x y l r1 Hxy HF1 IH]; intros l1 r4 HF2 HF3.
  - inversion HF2; subst. inversion HF3; subst. constructor.
  - inversion HF2 as [|x' ? l1' ? Hx'y HF2']; subst.
    inversion HF3 as [|y' ? r4' ? Hx'y' HF3']; subst.
    inversion Hc as [|? ? Hcx Hcl]; subst.
    constructor; [|now apply (IH Hcl l1')].
    apply (Hcx x' y y'); assumption.
Qed.
End CancelFacts.

(** ** The equality of items is an equivalence up to order *)

Lemma scalar_eqb_eq x y : scalar_eqb x y = true <-> x = y.
Proof.
  destruct x, y; simpl; split; intro H;
    try discriminate; try reflexivity;
    try (apply String.eqb_eq in H; now subst);
    try (apply Z.eqb_eq in H; now subst);
    try (apply Bool.eqb_prop in H; now subst);
    try (injection H as ->);
    auto using String.eqb_refl, Z.eqb_refl, Bool.eqb_reflx.
Qed.

Lemma canonical_eqb_mapping ea eb :
  canonical_eqb (Mapping ea) (Mapping eb) = same_multiset entry_eqb ea eb.
Proof. reflexivity. Qed.

Lemma canonical_eqb_sequence ia ib :
  canonical_eqb (Sequence ia) (Sequence ib)
  = same_multiset canonical_eqb ia ib.
Proof. reflexivity. Qed.

Lemma same_multiset_true {A} (same : A -> A -> bool) l r :
  same_multiset same l r = true <-> cancel same l r = ([], []).
Proof.
  unfold same_multiset.
  destruct (cancel same l r) as [[|x u] [|y v]]; split; intro H;
    try discriminate; reflexivity.
Qed.

Lemma entry_closes e :
  closes canonical_eqb (snd e) -> closes entry_eqb e.
Proof.
  unfold closes, entry_eqb; intros H e' f f' H1 H2 H3.
  apply andb_true_iff in H1, H2, H3.
  destruct H1 as [K1 V1], H2 as [K2 V2], H3 as [K3 V3].
  apply String.eqb_eq in K1, K2, K3.
  apply andb_true_iff; split.
  - apply String.eqb_eq; congruence.
  - exact (H _ _ _ V1 V2 V3).
Qed.

Lemma canonical_eqb_closes : forall a, closes canonical_eqb a.
Proof.
  induction a as [v|es IH|items IH] using node_induction;
    intros a' b b' H1 H2 H3.
  - destruct b; try discriminate.
    destruct a'; try discriminate.
    destruct b'; try discriminate.
    simpl in *. apply scalar_eqb_eq in H1, H2, H3. apply scalar_eqb_eq.
    congruence.
  - destruct b as [|eb|]; try discriminate.
    destruct a' as [|ea'|]; try discriminate.
    destruct b' as [|eb'|]; try discriminate.
    rewrite canonical_eqb_mapping in *.
    apply same_multiset_true in H1, H2, H3. apply same_multiset_true.
    assert (Hc : Forall (closes entry_eqb) es).
    { eapply Forall_impl; [|exact IH]. intros e; apply entry_closes. }
    apply cancel_complete; [assumption|].
    apply (pairing_closes entry_eqb es ea' eb eb' Hc);
      now apply cancel_sound.
  - destruct b as [| |ib]; try discriminate.
    destruct a' as [| |ia']; try discriminate.
    destruct b' as [| |ib']; try discriminate.
    rewrite canonical_eqb_sequence in *.
    apply same_multiset_true in H1, H2, H3. apply same_multiset_true.
    apply cancel_complete; [assumption|].
    apply (pairing_closes canonical_eqb items ia' ib ib' IH);
      now apply cancel_sound.
Qed.

Lemma canonical_eqb_refl : forall a, canonical_eqb a a = true.
Proof.
  induction a as [v|es IH|items IH] using node_induction.
  - now apply scalar_eqb_eq.
  - rewrite canonical_eqb_mapping. apply same_multiset_true.
    apply cancel_refl.
    eapply Forall_impl; [|exact IH].
    intros e He; unfold entry_eqb. now rewrite String.eqb_refl, He.
  - rewrite canonical_eqb_sequence. apply same_multiset_true.
    now apply cancel_refl.
Qed.

Lemma Forall_Forall2_impl {A B} (P : A -> Prop) (Q R : A -> B -> Prop) l r :
  Forall P l -> Forall2 Q l r ->
  (forall x y, P x -> Q x y -> R x y) -> Forall2 R l r.
Proof.
  intros HP HQ H; induction HQ as [|x y l r Hxy HQ IH]; constructor;
    inversion HP; subst; auto.
Qed.

(** Reordered trees are equal items. *)
Lemma reorder_canonical_eqb : forall a b,
  reorder a b -> canonical_eqb a b = true.
Proof.
  induction a as [v|es IH|items IH] using node_induction; intros b H;
    inversion H; subst.
  - now apply scalar_eqb_eq.
  - rewrite canonical_eqb_mapping. apply same_multiset_true.
    apply cancel_complete.
    + apply Forall_forall; intros e _.
      apply entry_closes, canonical_eqb_closes.
    + exists eb; split; [|reflexivity].
      eapply Forall_Forall2_impl; [exact IH | eassumption |].
      intros e e' He [Hk Hv]; unfold entry_eqb.
      rewrite Hk, String.eqb_refl. now apply He.
  - rewrite canonical_eqb_sequence. apply same_multiset_true.
    apply cancel_complete.
    + apply Forall_forall; intros x _. apply canonical_eqb_closes.
    + exists ib; split; [|assumption].
      eapply Forall_Forall2_impl; [exact IH | eassumption |].
      intros x y Hx Hxy. now apply Hx.
Qed.

(** ** Mappings with unique keys *)

Lemma well_formed_mapping es :
  well_formed (Mapping es)
  <-> NoDup (map fst es) /\ Forall (fun e => well_formed (snd e)) es.
Proof.
  simpl; split; intros [Hn H]; (split; [assumption|]).
  - induction es as [|e es IH]; constructor.
    + apply H.
    + apply IH; [now inversion Hn | apply H].
  - induction H as [|e es He _ IH]; simpl; [exact I|].
    split; [assumption | apply IH; now inversion Hn].
Qed.

Lemma well_formed_sequence items :
  well_formed (Sequence items) <-> Forall well_formed items.
Proof.
  simpl; split; intro H.
  - induction items as [|x l IH]; constructor; [apply H | apply IH, H].
  - induction H as [|x l Hx _ IH]; simpl; [exact I | now split].
Qed.

Lemma lookup_unique es e :
  NoDup (map fst es) -> In e es -> lookup (fst e) es = Some (snd e).
Proof.
  induction es as [|[k v] es IH]; simpl; intros Hn Hin; [contradiction|].
  inversion Hn as [|? ? Hk Hn']; subst.
  destruct Hin as [<-|Hin].
  - simpl. now rewrite String.eqb_refl.
  - destruct (String.eqb (fst e) k) eqn:E.
    + apply String.eqb_eq in E; subst k.
      exfalso; apply Hk. now apply in_map.
    + now apply IH.
Qed.

Lemma flat_map_nil {A B} (f : A -> list B) l :
  (forall x, In x l -> f x = []) -> flat_map f l = [].
Proof.
  induction l as [|x l IH]; simpl; intro H; [reflexivity|].
  rewrite (H x (or_introl eq_refl)), IH; auto.
Qed.

(** Entries with the same keys in the same order. *)
Lemma same_keys (ea eb : list (string * CanonicalNode)) :
  Forall2 (fun e e' => fst e = fst e' /\ reorder (snd e) (snd e')) ea eb ->
  map fst ea = map fst eb.
Proof.
  induction 1 as [|e e' ea eb [Hk _] _ IH]; simpl; congruence.
Qed.

Lemma Forall2_In_l {A B} (R : A -> B -> Prop) l r x :
  Forall2 R l r -> In x l -> exists y, In y r /\ R x y.
Proof.
  induction 1 as [|a b l r Hab _ IH]; simpl; intros Hin; [contradiction|].
  destruct Hin as [<-|Hin]; [eauto|].
  destruct (IH Hin) as (y & Hy & Hxy); eauto.
Qed.

Lemma Forall2_In_r {A B} (R : A -> B -> Prop) l r y :
  Forall2 R l r -> In y r -> exists x, In x l /\ R x y.
Proof.
  induction 1 as [|a b l r Hab _ IH]; simpl; intros Hin; [contradiction|].
  destruct Hin as [<-|Hin]; [eauto|].
  destruct (IH Hin) as (x & Hx & Hxy); eauto.
Qed.

(** ** The comparison of a tree with itself, and with a reordering *)

Lemma compare_at_refl : forall t,
  well_formed t -> forall p, compare_at p t t = [].
Proof.
  induction t as [v|es IH|items IH] using node_induction; intros Hw p.
  - simpl. now rewrite (proj2 (scalar_eqb_eq v v) eq_refl).
  - apply well_formed_mapping in Hw; destruct Hw as [Hn Hw].
    simpl. rewrite Forall_forall in IH, Hw.
    rewrite flat_map_nil.
    + apply flat_map_nil. intros e He. now rewrite lookup_unique.
    + intros e He. rewrite lookup_unique by assumption. auto.
  - simpl. rewrite cancel_refl; [reflexivity|].
    apply Forall_forall; intros x _. apply canonical_eqb_refl.
Qed.

Lemma compare_at_reorder : forall a b,
  reorder a b -> well_formed a -> forall p, compare_at p a b = [].
Proof.
  induction a as [v|es IH|items IH] using node_induction;
    intros b H Hw p; inversion H as [|? eb HF|? ib ic HF Hp]; subst.
  - simpl. now rewrite (proj2 (scalar_eqb_eq v v) eq_refl).
  - apply well_formed_mapping in Hw; destruct Hw as [Hn Hw].
    pose proof (same_keys _ _ HF) as Hk.
    assert (Hn' : NoDup (map fst eb)) by (now rewrite <- Hk).
    simpl. rewrite Forall_forall in IH, Hw.
    rewrite flat_map_nil.
    + apply flat_map_nil. intros e' He'.
      destruct (Forall2_In_r _ _ _ _ HF He') as (e & He & Hke & _).
      rewrite <- Hke. now rewrite lookup_unique.
    + intros e He.
      destruct (Forall2_In_l _ _ _ _ HF He) as (e' & He' & Hke & Hr).
      rewrite Hke at 1. rewrite lookup_unique by assumption. auto.
  - simpl.
    replace (cancel canonical_eqb items ic) with
      (@nil CanonicalNode, @nil CanonicalNode); [reflexivity|].
    symmetry. apply same_multiset_true.
    rewrite <- canonical_eqb_sequence. now apply reorder_canonical_eqb.
Qed.

(** ** The comparison on the examples of section 8 of the spec *)

Example scalar_type_distinction :
  DeepDiff (Mapping [("a", Scalar (SInt 1))])
           (Mapping [("a", Scalar (SStr "1"))])
  = [mk_entry ["a"] ValueChanged (Some (Scalar (SInt 1)))
              (Some (Scalar (SStr "1")))].
Proof. reflexivity. Qed.

Example key_addition :
  DeepDiff (Mapping [("a", Scalar (SInt 1))])
           (Mapping [("a", Scalar (SInt 1)); ("b", Scalar (SInt 2))])
  = [mk_entry ["b"] KeyAdded None (Some (Scalar (SInt 2)))].
Proof. reflexivity. Qed.

Example key_removal :
  DeepDiff (Mapping [("a", Scalar (SInt 1)); ("b", Scalar (SInt 2))])
           (Mapping [("a", Scalar (SInt 1))])
  = [mk_entry ["b"] KeyRemoved (Some (Scalar (SInt 2))) None].
Proof. reflexivity. Qed.

Example multiset_add_remove :
  DeepDiff (Sample.items [1; 2]%Z) (Sample.items [1; 3]%Z)
  = [mk_entry ["items"] ItemRemoved (Some (Scalar (SInt 2))) None;
     mk_entry ["items"] ItemAdded None (Some (Scalar (SInt 3)))].
Proof. reflexivity. Qed.

Example nested_sequences_reordered :
  DeepDiff
    (Sequence [Sequence [Scalar (SInt 1); Scalar (SInt 2)];
               Scalar (SStr "x")])
    (Sequence [Scalar (SStr "x");
               Sequence [Scalar (SInt 2); Scalar (SInt 1)]])
  = [].
Proof. reflexivity. Qed.

(** A mapping that repeats a key is not well formed, and differs from
    itself. *)
Example repeated_key_differs :
  DeepDiff (Mapping [("a", Scalar (SInt 1)); ("a", Scalar (SInt 2))])
           (Mapping [("a", Scalar (SInt 1)); ("a", Scalar (SInt 2))])
  <> [].
Proof. discriminate. Qed.

(** ** The events of one cycle *)

Lemma events_bind {A B} (m : M A) (k : A -> M B) :
  events (bind m k) = events m ++ events (k (result m)).
Proof. reflexivity. Qed.

Lemma result_bind {A B} (m : M A) (k : A -> M B) :
  result (bind m k) = result (k (result m)).
Proof. reflexivity. Qed.

Section CycleFacts.
Variable lib : Libraries.

(** Lines 216-219: both branches hand [format_output] a hint it reads the
    same way. *)
Lemma format_hint text format :
  (if truthy_opt format
   then format_output lib text format
   else format_output lib text None)
  = format_output lib text format.
Proof. destruct format as [[|c s]|]; reflexivity. Qed.

Lemma cycle_events command baseline_path output_path format remote :
  events (check_configuration lib command baseline_path output_path
            format remote)
  = Log INFO "Running configuration check..."
    :: events (run_command lib command)
    ++ match result (run_command lib command) with
       | None => [command_failure]
       | Some text =>
           let parsed := format_output lib text format in
           events parsed
           ++ if is_None (result parsed) then [parse_failure]
              else
                let loaded :=
                  load_baseline lib baseline_path format remote in
                events loaded
                ++ if is_None (result loaded) then [baseline_failure]
                   else
                     DeepDiffCall (result loaded) (result parsed)
                     :: match DeepDiff (result loaded) (result parsed) with
                        | [] => [no_drift]
                        | d :: ds =>
                            drift_detected
                            :: Log INFO ("Differences: "
                                         ++ str_differences lib (d :: ds))
                            :: match output_path with
                               | Some file =>
                                   if PyStr.truthy file
                                   then events (save_differences lib
                                                  (d :: ds) file)
                                   else []
                               | None => []
                               end
                        end
       end.
Proof.
  unfold check_configuration.
  rewrite events_bind; cbv beta. rewrite events_bind; cbv beta.
  change (events (logging_info "Running configuration check..."))
    with [Log INFO "Running configuration check..."].
  cbn [app]. f_equal. f_equal.
  destruct (result (run_command lib command)) as [text|]; [|reflexivity].
  rewrite format_hint, events_bind; cbv beta zeta. f_equal.
  destruct (is_None (result (format_output lib text format))) eqn:Ec;
    [reflexivity|].
  rewrite events_bind; cbv beta. f_equal.
  destruct (is_None (result (load_baseline lib baseline_path format
                               remote))) eqn:Eb; [reflexivity|].
  rewrite events_bind; cbv beta.
  unfold compare_configurations. rewrite Eb, Ec.
  cbn [orb events result fst snd app]. f_equal.
  destruct (DeepDiff _ _) as [|d ds]; [reflexivity|].
  rewrite events_bind; cbv beta. rewrite events_bind; cbv beta.
  cbn [events result fst snd logging_warning logging_info app].
  unfold drift_detected. do 2 f_equal.
  destruct output_path as [file|]; [|reflexivity].
  destruct (PyStr.truthy file); reflexivity.
Qed.

(** ** The stages before the comparison *)

Lemma run_command_except_quiet e :
  Forall (fun ev => is_stage_event ev = true)
         (events (run_command_except e)).
Proof.
  unfold run_command_except; destruct (exn_kind e); repeat constructor.
Qed.

Lemma run_command_quiet command :
  Forall (fun ev => is_stage_event ev = true)
         (events (run_command lib command)).
Proof.
  unfold run_command, bind, call. cbn [events result fst snd app].
  constructor; [reflexivity|].
  destruct (popen_communicate lib command) as [process|e];
    [|apply run_command_except_quiet].
  destruct (negb (returncode process =? 0)%Z).
  - destruct (stderr_decode process);
      [repeat constructor | apply run_command_except_quiet].
  - destruct (stdout_decode process);
      [constructor | apply run_command_except_quiet].
Qed.

Lemma format_output_except_quiet e :
  Forall (fun ev => is_stage_event ev = true)
         (events (format_output_except e))
  /\ result (format_output_except e) = PyNone.
Proof.
  unfold format_output_except; destruct (exn_kind e);
    split; repeat constructor.
Qed.

Lemma load_baseline_except_quiet baseline_path e :
  Forall (fun ev => is_stage_event ev = true)
         (events (load_baseline_except baseline_path e))
  /\ result (load_baseline_except baseline_path e) = PyNone.
Proof.
  unfold load_baseline_except; destruct (exn_kind e);
    split; repeat constructor.
Qed.

Lemma autodetect_quiet text :
  Forall (fun ev => is_stage_event ev = true)
         (events (autodetect lib text)).
Proof.
  unfold autodetect, bind, call. cbn [events result fst snd app].
  constructor; [reflexivity|].
  destruct (yaml_safe_load lib text) as [v|e]; [constructor|].
  destruct (exn_kind e); try apply format_output_except_quiet.
  cbn [events result fst snd app]. constructor; [reflexivity|].
  destruct (json_loads lib text) as [v|e']; [constructor|].
  destruct (exn_kind e'); try apply format_output_except_quiet.
  repeat constructor.
Qed.

Lemma format_output_quiet text format :
  Forall (fun ev => is_stage_event ev = true)
         (events (format_output lib text format)).
Proof.
  unfold format_output.
  destruct (format_is format "yaml");
    [|destruct (format_is format "json"); [|apply autodetect_quiet]];
    unfold bind, call; cbn [events result fst snd app];
    (constructor; [reflexivity|]).
  - destruct (yaml_safe_load lib text);
      [constructor | apply format_output_except_quiet].
  - destruct (json_loads lib text);
      [constructor | apply format_output_except_quiet].
Qed.

Lemma load_baseline_quiet baseline_path format remote :
  Forall (fun ev => is_stage_event ev = true)
         (events (load_baseline lib baseline_path format remote)).
Proof.
  unfold load_baseline. rewrite events_bind.
  apply Forall_app; split; [destruct remote; repeat constructor|].
  cbv beta.
  set (source := result (if remote then _ else _)).
  destruct source as [content|e];
    [|apply load_baseline_except_quiet].
  cbv zeta.
  destruct (String.eqb _ "yaml");
    [|destruct (String.eqb _ "json"); [|repeat constructor]];
    rewrite events_bind; unfold call; cbn [events result fst snd app];
    (constructor; [reflexivity|]).
  - destruct (yaml_safe_load lib content);
      [constructor | apply load_baseline_except_quiet].
  - destruct (json_loads lib content);
      [constructor | apply load_baseline_except_quiet].
Qed.

End CycleFacts.

Lemma not_in_stage l e :
  Forall (fun ev => is_stage_event ev = true) l ->
  is_stage_event e = false -> ~ In e l.
Proof.
  intros HF He Hin. rewrite Forall_forall in HF.
  specialize (HF e Hin). congruence.
Qed.

(** ** The command *)

Lemma run_command_output lib command text :
  result (run_command lib command) = Some text ->
  events (run_command lib command) = [Popen command].
Proof.
  unfold run_command. rewrite events_bind, result_bind.
  unfold call; cbn [events result fst snd app].
  assert (Hx : forall e, result (run_command_except e) = None)
    by (intro e; unfold run_command_except; now destruct (exn_kind e)).
  destruct (popen_communicate lib command) as [process|e];
    [|rewrite Hx; discriminate].
  destruct (negb (returncode process =? 0)%Z).
  - destruct (stderr_decode process); [discriminate | now rewrite Hx].
  - destruct (stdout_decode process); [reflexivity | now rewrite Hx].
Qed.

(** X11: the command gives no text exactly when the sub-process raised,
    left with a status other than 0 (whatever it wrote), or left with
    status 0 and wrote what does not decode. *)
Lemma run_command_None lib command :
  result (run_command lib command) = None
  <-> (exists e, popen_communicate lib command = Raise e)
      \/ (exists process,
            popen_communicate lib command = Return process
            /\ (returncode process <> 0%Z
                \/ exists e, stdout_decode process = Raise e)).
Proof.
  unfold run_command. rewrite result_bind.
  unfold call; cbn [events result fst snd app].
  assert (Hx : forall e, result (run_command_except e) = None)
    by (intro e; unfold run_command_except; now destruct (exn_kind e)).
  destruct (popen_communicate lib command) as [process|e].
  - destruct (Z.eqb_spec (returncode process) 0) as [E|E]; cbn [negb].
    + destruct (stdout_decode process) as [output|e] eqn:Eo.
      * split; [discriminate|].
        intros [[e He]|(q & Hq & [Hr|[e He]])]; try discriminate;
          injection Hq as <-; congruence.
      * split; [|intros _; apply Hx].
        intros _; right; exists process; eauto.
    + split; [intros _; right; exists process; auto|].
      intros _. destruct (stderr_decode process); [reflexivity | apply Hx].
  - split; [eauto | intros _; apply Hx].
Qed.

(** ** Saving *)

Lemma save_differences_events lib d file :
  events (save_differences lib d file)
  = [JsonDump file d;
     match json_dump lib file d with
     | Return _ => Log INFO ("Differences saved to: " ++ file)
     | Raise e => Log ERROR ("Error saving differences to file: "
                             ++ exn_text e)
     end].
Proof.
  unfold save_differences. rewrite events_bind.
  unfold call; cbn [events result fst snd app].
  now destruct (json_dump lib file d).
Qed.

(** ** The format that the name of the baseline selects *)

Lemma json_suffix_format baseline_path :
  PyStr.endswith (PyStr.lower baseline_path) ".json" = true ->
  format_of_path baseline_path = "json".
Proof.
  unfold format_of_path, PyStr.endswith.
  change (PyStr.rev ".json") with "nosj.".
  change (PyStr.rev ".yaml") with "lmay.".
  change (PyStr.rev ".yml") with "lmy.".
  destruct (PyStr.rev (PyStr.lower baseline_path)) as [|c r];
    [discriminate|].
  intro H. cbn [String.prefix] in H |- *.
  destruct (ascii_dec "n" c) as [<-|]; [|discriminate].
  cbn. now rewrite H.
Qed.

(** ** A parser with a fixed format *)

Lemma format_output_yaml lib text :
  events (format_output lib text (Some "yaml"))
  = YamlSafeLoad text
    :: match yaml_safe_load lib text with
       | Return _ => []
       | Raise e => events (format_output_except e)
       end
  /\ result (format_output lib text (Some "yaml"))
     = strict_result (yaml_safe_load lib text).
Proof.
  unfold format_output. cbn [format_is String.eqb Ascii.eqb Bool.eqb].
  rewrite events_bind, result_bind.
  unfold call; cbn [events result fst snd app].
  destruct (yaml_safe_load lib text) as [v|e]; [split; reflexivity|].
  split; [reflexivity | apply format_output_except_quiet].
Qed.

Lemma format_output_json lib text :
  events (format_output lib text (Some "json"))
  = JsonLoads text
    :: match json_loads lib text with
       | Return _ => []
       | Raise e => events (format_output_except e)
       end
  /\ result (format_output lib text (Some "json"))
     = strict_result (json_loads lib text).
Proof.
  unfold format_output. cbn [format_is String.eqb Ascii.eqb Bool.eqb].
  rewrite events_bind, result_bind.
  unfold call; cbn [events result fst snd app].
  destruct (json_loads lib text) as [v|e]; [split; reflexivity|].
  split; [reflexivity | apply format_output_except_quiet].
Qed.

(** The source of the baseline and the record of its reading. *)
Lemma load_baseline_source lib baseline_path format (remote : bool) :
  let source := if remote then requests_get lib baseline_path
                else open_read lib baseline_path in
  let reading := if remote then RequestsGet baseline_path
                 else OpenRead baseline_path in
  let format' := match format with
                 | None => format_of_path baseline_path
                 | Some f => f
                 end in
  let parse (ev : event) (answer : outcome CanonicalNode) :=
    (ev :: match answer with
              | Return _ => []
              | Raise e => events (load_baseline_except baseline_path e)
              end,
     strict_result answer) in
  load_baseline lib baseline_path format remote
  = match source with
    | Raise e => (reading :: events (load_baseline_except baseline_path e),
                  PyNone)
    | Return content =>
        let (tail, v) :=
          if String.eqb format' "yaml"
          then parse (YamlSafeLoad content) (yaml_safe_load lib content)
          else if String.eqb format' "json"
          then parse (JsonLoads content) (json_loads lib content)
          else ([Log ERROR ("Unsupported format: " ++ format')], PyNone) in
        (reading :: tail, v)
    end.
Proof.
  cbv zeta. unfold load_baseline, bind, call.
  assert (Hx : forall e,
    load_baseline_except baseline_path e
    = (events (load_baseline_except baseline_path e), PyNone)).
  { intro e. unfold load_baseline_except. now destruct (exn_kind e). }
  destruct remote; cbn [events result fst snd app].
  all: match goal with
       | |- context [match ?src with Return _ => _ | Raise _ => _ end] =>
           destruct src as [content|e]
       end.
  all: try (rewrite Hx at 1 2; reflexivity).
  all: destruct (String.eqb _ "yaml");
       [|destruct (String.eqb _ "json"); [|reflexivity]];
       cbn [events result fst snd app].
  all: match goal with
       | |- context [match ?ans with Return _ => _ | Raise _ => _ end] =>
           destruct ans as [v|e]
       end; try reflexivity.
  all: rewrite Hx at 1 2; reflexivity.
Qed.

(** * The claims *)

(** C1, as stated, fails: in the sample the file [baseline.json] holds
    [a: 1], which is YAML and not JSON, and with no format given
    [load_baseline] does not load it. *)
Lemma auto_fallback_refuted : ~ auto_fallback_as_stated.
Proof.
  intro H.
  specialize (H Sample.libraries "baseline.json" "a: 1"
                (Mapping [("a", Scalar (SInt 1))])
                (mk_exn JSONDecodeError
                   "Expecting value: line 1 column 1 (char 0)")
                eq_refl eq_refl eq_refl eq_refl eq_refl eq_refl).
  vm_compute in H. discriminate H.
Qed.

(** C1, amended: with no format given and a baseline whose name ends in
    [.json], the baseline is parsed as JSON and as nothing else; a document
    that is not valid JSON does not load (the result is None, after the one
    call to the JSON parser and the record of its error), whether or not it
    is valid YAML.  A second format is tried only on the output of the
    command, with no format given: YAML first, and JSON when the YAML
    parser raises its own error. *)
Theorem json_named_baseline_is_json_only :
  forall lib baseline_path (remote : bool) content e,
    PyStr.endswith (PyStr.lower baseline_path) ".json" = true ->
    (if remote then requests_get lib baseline_path
     else open_read lib baseline_path) = Return content ->
    json_loads lib content = Raise e ->
    (result (load_baseline lib baseline_path None remote) = PyNone
     /\ events (load_baseline lib baseline_path None remote)
        = (if remote then RequestsGet baseline_path
           else OpenRead baseline_path)
          :: JsonLoads content
          :: events (load_baseline_except baseline_path e)
     /\ Forall (fun ev => is_yaml_call ev = false)
               (events (load_baseline lib baseline_path None remote)))
    /\ (forall text ey v,
          yaml_safe_load lib text = Raise ey ->
          exn_kind ey = YAMLError ->
          json_loads lib text = Return v ->
          result (format_output lib text None) = v
          /\ events (format_output lib text None)
             = [YamlSafeLoad text; JsonLoads text]).
Proof.
  intros lib baseline_path remote content e Hs Hc Hj. split.
  - pose proof (load_baseline_source lib baseline_path None remote) as L.
    cbv zeta in L. rewrite Hc, (json_suffix_format _ Hs), Hj in L.
    cbn [String.eqb Ascii.eqb Bool.eqb strict_result] in L.
    rewrite L. cbn [result events fst snd].
    repeat split.
    constructor; [now destruct remote|].
    constructor; [reflexivity|].
    unfold load_baseline_except; destruct (exn_kind e); repeat constructor.
  - intros text ey v Hy Hk Hv.
    unfold format_output, autodetect. cbn [format_is].
    rewrite events_bind, result_bind.
    unfold call; cbn [events result fst snd app].
    rewrite Hy, Hk, events_bind, result_bind.
    cbn [events result fst snd app]. now rewrite Hv.
Qed.

Lemma json_named_baseline_is_json_only_witness :
  result (load_baseline Sample.libraries "baseline.json" None false)
  = PyNone.
Proof.
  apply (json_named_baseline_is_json_only Sample.libraries "baseline.json"
           false "a: 1"
           (mk_exn JSONDecodeError
              "Expecting value: line 1 column 1 (char 0)"));
    reflexivity.
Defined.

(** C2, as stated, fails: in the sample the command [cat
    /etc/app/broken.yaml] gives its text, the baseline [missing.yaml] does
    not load, and the cycle ends on the failure to parse the current
    configuration, with no record of a baseline failure. *)
Lemma baseline_failure_refuted : ~ baseline_failure_as_stated.
Proof.
  intro H.
  destruct (H Sample.libraries "cat /etc/app/broken.yaml" "missing.yaml"
              None None false "{" eq_refl eq_refl) as [Hin _].
  vm_compute in Hin.
  repeat (destruct Hin as [Hin|Hin]; [discriminate Hin|]).
  exact Hin.
Qed.

(** C2, amended: in every cycle in which the command gives its text, that
    text parses to a document other than None, and the baseline does not
    load, the cycle ends on the record of the baseline failure and makes
    no comparison. *)
Theorem baseline_failure_after_parse :
  forall lib command baseline_path output_path format remote text,
    result (run_command lib command) = Some text ->
    is_None (result (format_output lib text format)) = false ->
    is_None (result (load_baseline lib baseline_path format remote)) = true ->
    let evs := events (check_configuration lib command baseline_path
                         output_path format remote) in
    evs = Log INFO "Running configuration check..."
          :: events (run_command lib command)
          ++ events (format_output lib text format)
          ++ events (load_baseline lib baseline_path format remote)
          ++ [baseline_failure]
    /\ (forall e, In e evs -> is_comparison e = false)
    /\ ~ In drift_detected evs
    /\ ~ In no_drift evs.
Proof.
  intros lib command baseline_path output_path format remote text Hr Hp Hb.
  cbv zeta. rewrite cycle_events, Hr. cbv zeta. rewrite Hp, Hb.
  split; [reflexivity|].
  assert (HF : Forall (fun ev => is_stage_event ev = true)
                 (events (run_command lib command)
                  ++ events (format_output lib text format)
                  ++ events (load_baseline lib baseline_path format remote))).
  { apply Forall_app; split; [apply run_command_quiet|].
    apply Forall_app; split;
      [apply format_output_quiet | apply load_baseline_quiet]. }
  rewrite Forall_forall in HF.
  assert (Hin : forall e,
    In e (Log INFO "Running configuration check..."
          :: events (run_command lib command)
          ++ events (format_output lib text format)
          ++ events (load_baseline lib baseline_path format remote)
          ++ [baseline_failure]) ->
    e = Log INFO "Running configuration check..."
    \/ is_stage_event e = true \/ e = baseline_failure).
  { intros e [<-|Hin]; [now left|]. right.
    apply in_app_or in Hin as [Hin|Hin];
      [left; apply HF, in_or_app; now left|].
    apply in_app_or in Hin as [Hin|Hin];
      [left; apply HF, in_or_app; right; apply in_or_app; now left|].
    apply in_app_or in Hin as [Hin|[<-|[]]]; [|now right].
    left; apply HF, in_or_app; right; apply in_or_app; now right. }
  split; [|split].
  - intros e He. destruct (Hin e He) as [->|[Hs| ->]]; try reflexivity.
    now destruct e as [[]| | | | | | |].
  - intros He. destruct (Hin _ He) as [H|[H|H]]; discriminate H.
  - intros He. destruct (Hin _ He) as [H|[H|H]]; discriminate H.
Qed.

Lemma baseline_failure_after_parse_witness :
  In baseline_failure
     (events (check_configuration Sample.libraries "cat /etc/hostname"
                "missing.yaml" None None false)).
Proof.
  pose proof (baseline_failure_after_parse Sample.libraries
                "cat /etc/hostname" "missing.yaml" None None false "web01"
                eq_refl eq_refl eq_refl) as H.
  cbv zeta in H. destruct H as [H _]. rewrite H.
  vm_compute. tauto.
Defined.

(** C3: in every cycle in which the command gives no text, the cycle ends
    on the record of the command failure, right after the events of the
    command itself; no parser is called, no baseline is read and nothing
    is compared. *)
Theorem command_failure_short_circuits :
  forall lib command baseline_path output_path format remote,
    result (run_command lib command) = None ->
    let evs := events (check_configuration lib command baseline_path
                         output_path format remote) in
    evs = Log INFO "Running configuration check..."
          :: events (run_command lib command) ++ [command_failure]
    /\ forall e, In e evs ->
         is_parser_call e = false
         /\ is_baseline_read e = false
         /\ is_comparison e = false.
Proof.
  intros lib command baseline_path output_path format remote Hr.
  cbv zeta. rewrite cycle_events, Hr. split; [reflexivity|].
  assert (HF : forall e, In e (events (run_command lib command)) ->
             exists m, e = Popen m \/ e = Log ERROR m).
  { unfold run_command. rewrite events_bind.
    unfold call; cbn [events result fst snd app].
    assert (Hx : forall x e, In e (events (run_command_except x)) ->
               exists m, e = Log ERROR m).
    { intros x e. unfold run_command_except.
      destruct (exn_kind x); intros [<-|[]]; eauto. }
    intros e [<-|Hin]; [eauto|].
    destruct (popen_communicate lib command) as [process|x].
    - destruct (negb (returncode process =? 0)%Z).
      + destruct (stderr_decode process) as [error|x].
        * destruct Hin as [<-|[]]; eauto.
        * destruct (Hx _ _ Hin) as (m & ->); eauto.
      + destruct (stdout_decode process) as [output|x]; [destruct Hin|].
        destruct (Hx _ _ Hin) as (m & ->); eauto.
    - destruct (Hx _ _ Hin) as (m & ->); eauto. }
  intros e [<-|Hin]; [now repeat split|].
  apply in_app_or in Hin. destruct Hin as [Hin|[<-|[]]];
    [|now repeat split].
  destruct (HF e Hin) as (m & [->| ->]); now repeat split.
Qed.

Lemma command_failure_short_circuits_witness :
  events (check_configuration Sample.libraries "cat /nonexistent"
            "baseline.yaml" None None false)
  = [Log INFO "Running configuration check...";
     Popen "cat /nonexistent";
     Log ERROR
       "Command execution failed with error: cat: No such file or directory";
     command_failure].
Proof.
  exact (proj1 (command_failure_short_circuits Sample.libraries
                  "cat /nonexistent" "baseline.yaml" None None false
                  eq_refl)).
Defined.

(** C4: with the format given as yaml or as json, [format_output] and
    [load_baseline] call the parser of that format once and never the
    other one; what the parser returns is the result, and when the parser
    raises the result is None. *)
Theorem explicit_format_is_strict :
  forall lib text baseline_path (remote : bool),
    let source := if remote then requests_get lib baseline_path
                  else open_read lib baseline_path in
    (result (format_output lib text (Some "yaml"))
       = strict_result (yaml_safe_load lib text)
     /\ In (YamlSafeLoad text)
           (events (format_output lib text (Some "yaml")))
     /\ Forall (fun e => is_json_call e = false)
               (events (format_output lib text (Some "yaml"))))
    /\ (result (format_output lib text (Some "json"))
          = strict_result (json_loads lib text)
        /\ In (JsonLoads text)
              (events (format_output lib text (Some "json")))
        /\ Forall (fun e => is_yaml_call e = false)
                  (events (format_output lib text (Some "json"))))
    /\ (Forall (fun e => is_json_call e = false)
               (events (load_baseline lib baseline_path (Some "yaml") remote))
        /\ forall content, source = Return content ->
             result (load_baseline lib baseline_path (Some "yaml") remote)
             = strict_result (yaml_safe_load lib content))
    /\ (Forall (fun e => is_yaml_call e = false)
               (events (load_baseline lib baseline_path (Some "json") remote))
        /\ forall content, source = Return content ->
             result (load_baseline lib baseline_path (Some "json") remote)
             = strict_result (json_loads lib content)).
Proof.
  intros lib text baseline_path remote. cbv zeta.
  assert (Hf : forall e,
    Forall (fun ev => is_json_call ev = false /\ is_yaml_call ev = false)
           (events (format_output_except e))).
  { intro e. unfold format_output_except.
    destruct (exn_kind e); repeat constructor. }
  assert (Hl : forall e,
    Forall (fun ev => is_json_call ev = false /\ is_yaml_call ev = false)
           (events (load_baseline_except baseline_path e))).
  { intro e. unfold load_baseline_except.
    destruct (exn_kind e); repeat constructor. }
  assert (Hj : forall l,
    Forall (fun ev => is_json_call ev = false /\ is_yaml_call ev = false) l ->
    Forall (fun ev => is_json_call ev = false) l)
    by (intros l H; eapply Forall_impl; [|exact H]; now intros ? []).
  assert (Hy : forall l,
    Forall (fun ev => is_json_call ev = false /\ is_yaml_call ev = false) l ->
    Forall (fun ev => is_yaml_call ev = false) l)
    by (intros l H; eapply Forall_impl; [|exact H]; now intros ? []).
  repeat apply conj.
  - apply format_output_yaml.
  - rewrite (proj1 (format_output_yaml lib text)). now left.
  - rewrite (proj1 (format_output_yaml lib text)).
    constructor; [reflexivity|].
    destruct (yaml_safe_load lib text); [constructor | apply Hj, Hf].
  - apply format_output_json.
  - rewrite (proj1 (format_output_json lib text)). now left.
  - rewrite (proj1 (format_output_json lib text)).
    constructor; [reflexivity|].
    destruct (json_loads lib text); [constructor | apply Hy, Hf].
  - pose proof (load_baseline_source lib baseline_path (Some "yaml") remote)
      as L. cbv zeta in L. rewrite L. clear L.
    destruct (if remote then requests_get lib baseline_path
              else open_read lib baseline_path) as [content|e].
    + cbn [String.eqb Ascii.eqb Bool.eqb events fst].
      constructor; [now destruct remote|].
      constructor; [reflexivity|].
      destruct (yaml_safe_load lib content); [constructor | apply Hj, Hl].
    + cbn [events fst]. constructor; [now destruct remote | apply Hj, Hl].
  - intros content Hc.
    pose proof (load_baseline_source lib baseline_path (Some "yaml") remote)
      as L. cbv zeta in L. rewrite L, Hc. reflexivity.
  - pose proof (load_baseline_source lib baseline_path (Some "json") remote)
      as L. cbv zeta in L. rewrite L. clear L.
    destruct (if remote then requests_get lib baseline_path
              else open_read lib baseline_path) as [content|e].
    + cbn [String.eqb Ascii.eqb Bool.eqb events fst].
      constructor; [now destruct remote|].
      constructor; [reflexivity|].
      destruct (json_loads lib content); [constructor | apply Hy, Hl].
    + cbn [events fst]. constructor; [now destruct remote | apply Hy, Hl].
  - intros content Hc.
    pose proof (load_baseline_source lib baseline_path (Some "json") remote)
      as L. cbv zeta in L. rewrite L, Hc. reflexivity.
Qed.

Lemma reorder_is_None a b : reorder a b -> is_None b = is_None a.
Proof. now destruct 1. Qed.

(** C5: two trees that are the same except for the order of the items of
    their sequences, at any depth, and whose mappings have unique keys,
    compare to the empty difference; [compare_configurations] returns that
    empty difference for them. *)
Theorem sequence_order_is_ignored :
  forall a b,
    reorder a b ->
    well_formed a ->
    DeepDiff a b = []
    /\ (is_None a = false ->
        result (compare_configurations a b) = Some []).
Proof.
  intros a b Hr Hw.
  assert (Hd : DeepDiff a b = [])
    by (now apply compare_at_reorder).
  split; [assumption|].
  intro Ha. unfold compare_configurations.
  rewrite (reorder_is_None _ _ Hr), Ha. cbn [orb result snd].
  now rewrite Hd.
Qed.

Lemma sequence_order_is_ignored_witness :
  DeepDiff (Sample.items [1; 2; 3]%Z) (Sample.items [3; 2; 1]%Z) = [].
Proof.
  apply (sequence_order_is_ignored (Sample.items [1; 2; 3]%Z)
           (Sample.items [3; 2; 1]%Z)).
  - apply reorder_mapping. constructor; [|constructor].
    split; [reflexivity|].
    apply reorder_sequence
      with (ib := [Scalar (SInt 1); Scalar (SInt 2); Scalar (SInt 3)]).
    + repeat constructor.
    + apply (Permutation_rev
               [Scalar (SInt 1); Scalar (SInt 2); Scalar (SInt 3)]).
  - simpl. repeat split. constructor; [intros []|constructor].
Defined.

(** C6: a tree whose mappings have unique keys compares to the empty
    difference with itself.  [compare_configurations] returns that empty
    difference, except for the document None, for which it returns None
    as for any missing side. *)
Theorem compare_is_reflexive :
  forall t,
    well_formed t ->
    DeepDiff t t = []
    /\ result (compare_configurations t t)
       = if is_None t then None else Some [].
Proof.
  intros t Hw.
  assert (Hd : DeepDiff t t = []) by (now apply compare_at_refl).
  split; [assumption|].
  unfold compare_configurations.
  destruct (is_None t); cbn [orb result snd]; [reflexivity|].
  now rewrite Hd.
Qed.

Lemma compare_is_reflexive_witness :
  DeepDiff (Sample.items [1; 2; 3]%Z) (Sample.items [1; 2; 3]%Z) = [].
Proof.
  apply (compare_is_reflexive (Sample.items [1; 2; 3]%Z)).
  simpl. repeat split. constructor; [intros []|constructor].
Defined.

(** The records a cycle ends on are no stage events. *)
Lemma cycle_tail lib command baseline_path output_path format remote text :
  result (run_command lib command) = Some text ->
  is_None (result (format_output lib text format)) = false ->
  is_None (result (load_baseline lib baseline_path format remote)) = false ->
  exists stages,
    Forall (fun ev => is_stage_event ev = true) stages
    /\ events (check_configuration lib command baseline_path output_path
                 format remote)
       = Log INFO "Running configuration check..."
         :: stages
         ++ DeepDiffCall
              (result (load_baseline lib baseline_path format remote))
              (result (format_output lib text format))
         :: match DeepDiff
                    (result (load_baseline lib baseline_path format remote))
                    (result (format_output lib text format)) with
            | [] => [no_drift]
            | d :: ds =>
                drift_detected
                :: Log INFO ("Differences: "
                             ++ str_differences lib (d :: ds))
                :: match output_path with
                   | Some file =>
                       if PyStr.truthy file
                       then events (save_differences lib (d :: ds) file)
                       else []
                   | None => []
                   end
            end.
Proof.
  intros Hr Hp Hb.
  exists (events (run_command lib command)
          ++ events (format_output lib text format)
          ++ events (load_baseline lib baseline_path format remote)).
  split.
  - apply Forall_app; split; [apply run_command_quiet|].
    apply Forall_app; split;
      [apply format_output_quiet | apply load_baseline_quiet].
  - rewrite cycle_events, Hr. cbv zeta. rewrite Hp, Hb.
    now rewrite <- !app_assoc.
Qed.

(** C7: in a cycle that reaches the comparison, the record of drift is in
    the log exactly when the difference has an entry, and the record of no
    drift exactly when it has none. *)
Theorem drift_verdict :
  forall lib command baseline_path output_path format remote text,
    result (run_command lib command) = Some text ->
    is_None (result (format_output lib text format)) = false ->
    is_None (result (load_baseline lib baseline_path format remote))
    = false ->
    let differences :=
      DeepDiff (result (load_baseline lib baseline_path format remote))
               (result (format_output lib text format)) in
    let evs := events (check_configuration lib command baseline_path
                         output_path format remote) in
    (In drift_detected evs <-> differences <> [])
    /\ (In no_drift evs <-> differences = []).
Proof.
  intros lib command baseline_path output_path format remote text Hr Hp Hb.
  cbv zeta.
  destruct (cycle_tail lib command baseline_path output_path format remote
              text Hr Hp Hb) as (stages & HF & ->).
  assert (Hs : forall e, is_stage_event e = false -> ~ In e stages)
    by (intros e He; now apply not_in_stage).
  assert (Hsave : forall d file e,
    In e (events (save_differences lib d file)) ->
    e <> drift_detected /\ e <> no_drift).
  { intros d file e. rewrite save_differences_events.
    intros [<-|[<-|[]]]; [split; discriminate|].
    destruct (json_dump lib file d); split; discriminate. }
  destruct (DeepDiff _ _) as [|d ds].
  - split; split; try congruence.
    + intros [H|H]; [discriminate H|].
      apply in_app_or in H. destruct H as [H|[H|[H|[]]]];
        try discriminate H.
      now apply Hs in H.
    + intros _. right. apply in_or_app. right. right. now left.
  - split; split; try discriminate.
    + intros _. right. apply in_or_app. right. right. now left.
    + intros [H|H]; [discriminate H|].
      apply in_app_or in H. destruct H as [H|[H|[H|[H|H]]]];
        try discriminate H.
      * now apply Hs in H.
      * destruct output_path as [file|]; [|destruct H].
        destruct (PyStr.truthy file); [|destruct H].
        now destruct (Hsave _ _ _ H).
Qed.

Lemma drift_verdict_witness :
  In no_drift
     (events (check_configuration Sample.libraries
                "cat /etc/app/config.yaml" "baseline.yaml" None None false))
  /\ In drift_detected
        (events (check_configuration Sample.libraries
                   "cat /etc/app/changed.yaml" "baseline.yaml" None None
                   false)).
Proof.
  split.
  - apply (drift_verdict Sample.libraries "cat /etc/app/config.yaml"
             "baseline.yaml" None None false "items: [1, 2, 3]"
             eq_refl eq_refl eq_refl).
    reflexivity.
  - apply (drift_verdict Sample.libraries "cat /etc/app/changed.yaml"
             "baseline.yaml" None None false "items: [1, 3]"
             eq_refl eq_refl eq_refl).
    discriminate.
Defined.

(** C8, as stated, fails: in the sample the command [cat
    /etc/app/null.yaml] gives the text [null], a bare scalar that the YAML
    parser reads as null, which is None; the cycle records the parse
    failure. *)
Lemma bare_scalar_refuted : ~ bare_scalar_as_stated.
Proof.
  intro H.
  destruct (H Sample.libraries "cat /etc/app/null.yaml" "baseline.yaml"
              None false "null" SNull eq_refl eq_refl) as [_ Hn].
  apply Hn. vm_compute. tauto.
Qed.

(** C8, amended: when the YAML parser reads the text as a scalar other
    than null (a word, a number, a truth value), [format_output] with no
    format given returns that scalar after the one call to the YAML
    parser; a cycle whose command gives that text records no parse
    failure and goes on to load the baseline. *)
Theorem bare_scalar_parses :
  forall lib text v,
    yaml_safe_load lib text = Return (Scalar v) ->
    v <> SNull ->
    result (format_output lib text None) = Scalar v
    /\ events (format_output lib text None) = [YamlSafeLoad text]
    /\ forall command baseline_path output_path remote,
         result (run_command lib command) = Some text ->
         let evs := events (check_configuration lib command baseline_path
                              output_path None remote) in
         ~ In parse_failure evs
         /\ exists rest,
              evs = [Log INFO "Running configuration check...";
                     Popen command; YamlSafeLoad text]
                    ++ events (load_baseline lib baseline_path None remote)
                    ++ rest.
Proof.
  intros lib text v Hy Hv.
  assert (Hres : result (format_output lib text None) = Scalar v).
  { unfold format_output, autodetect. cbn [format_is].
    rewrite result_bind. unfold call; cbn [result snd]. now rewrite Hy. }
  assert (Hev : events (format_output lib text None) = [YamlSafeLoad text]).
  { unfold format_output, autodetect. cbn [format_is].
    rewrite events_bind. unfold call; cbn [events result fst snd].
    now rewrite Hy. }
  split; [assumption|]. split; [assumption|].
  intros command baseline_path output_path remote Hr. cbv zeta.
  rewrite cycle_events, Hr. cbv zeta.
  rewrite (run_command_output _ _ _ Hr), Hev, Hres.
  assert (Hn : is_None (Scalar v) = false) by (now destruct v).
  rewrite Hn. cbn [app].
  set (loaded := load_baseline lib baseline_path None remote).
  split; [|eauto].
  intros [H|[H|[H|H]]]; try discriminate H.
  apply in_app_or in H. destruct H as [H|H].
  - revert H. apply not_in_stage; [apply load_baseline_quiet | reflexivity].
  - destruct (is_None (result loaded)).
    + destruct H as [H|[]]; discriminate H.
    + destruct H as [H|H]; [discriminate H|].
      destruct (DeepDiff _ _) as [|d ds].
      * destruct H as [H|[]]; discriminate H.
      * destruct H as [H|[H|H]]; try discriminate H.
        destruct output_path as [file|]; [|destruct H].
        destruct (PyStr.truthy file); [|destruct H].
        rewrite save_differences_events in H.
        destruct H as [H|[H|[]]]; [discriminate H|].
        destruct (json_dump lib file (d :: ds)); discriminate H.
Qed.

Lemma bare_scalar_parses_witness :
  result (format_output Sample.libraries "web01" None)
  = Scalar (SStr "web01")
  /\ ~ In parse_failure
          (events (check_configuration Sample.libraries "cat /etc/hostname"
                     "hostname.yaml" None None false)).
Proof.
  assert (Hv : SStr "web01" <> SNull) by discriminate.
  destruct (bare_scalar_parses Sample.libraries "web01" (SStr "web01")
              eq_refl Hv) as (Hr & _ & Hc).
  split; [exact Hr|].
  exact (proj1 (Hc "cat /etc/hostname" "hostname.yaml" None false eq_refl)).
Defined.

Lemma format_output_None lib text format :
  parses_to lib format text PyNone \/ unparseable lib format text ->
  result (format_output lib text format) = PyNone.
Proof.
  unfold parses_to, unparseable, format_output.
  assert (Hx : forall e, result (format_output_except e) = PyNone)
    by (intro e; apply format_output_except_quiet).
  destruct (format_is format "yaml");
    [|destruct (format_is format "json")].
  - rewrite result_bind; unfold call; cbn [result snd].
    intros [->|[e ->]]; [reflexivity | apply Hx].
  - rewrite result_bind; unfold call; cbn [result snd].
    intros [->|[e ->]]; [reflexivity | apply Hx].
  - unfold autodetect. rewrite result_bind; unfold call; cbn [result snd].
    intros [[->|[(e & -> & Hk) Hj]]|(e & -> & Hj)]; [reflexivity| |].
    + rewrite Hk, result_bind. cbn [result snd]. now rewrite Hj.
    + destruct (exn_kind e); try apply Hx.
      destruct (Hj eq_refl) as (e' & He').
      rewrite result_bind. cbn [result snd]. rewrite He'.
      destruct (exn_kind e'); try apply Hx. reflexivity.
Qed.

(** C9: a text that the parser reads as null and a text that no parser
    reads give the same result of [format_output], None; in both cases a
    cycle whose command gives that text ends on the record of the parse
    failure, reads no baseline and compares nothing. *)
Theorem null_document_is_a_parse_failure :
  forall lib command baseline_path output_path format remote text,
    result (run_command lib command) = Some text ->
    parses_to lib format text PyNone \/ unparseable lib format text ->
    result (format_output lib text format) = PyNone
    /\ let evs := events (check_configuration lib command baseline_path
                            output_path format remote) in
       evs = Log INFO "Running configuration check..."
             :: Popen command
             :: events (format_output lib text format)
             ++ [parse_failure]
       /\ forall e, In e evs ->
            is_baseline_read e = false /\ is_comparison e = false.
Proof.
  intros lib command baseline_path output_path format remote text Hr Hp.
  pose proof (format_output_None _ _ _ Hp) as Hn.
  split; [assumption|]. cbv zeta.
  rewrite cycle_events, Hr. cbv zeta.
  rewrite (run_command_output _ _ _ Hr), Hn. cbn [is_None PyNone app].
  split; [reflexivity|].
  intros e [<-|[<-|He]]; [now split | now split |].
  apply in_app_or in He. destruct He as [He|[<-|[]]]; [|now split].
  assert (Hx : forall x, In e (events (format_output_except x)) ->
             is_baseline_read e = false /\ is_comparison e = false).
  { intros x. unfold format_output_except.
    destruct (exn_kind x); intros [<-|[]]; now split. }
  revert He. unfold format_output, autodetect.
  destruct (format_is format "yaml");
    [|destruct (format_is format "json")];
    rewrite events_bind; unfold call; cbn [events result fst snd app];
    (intros [<-|He]; [now split|]).
  - destruct (yaml_safe_load lib text); [destruct He | eauto].
  - destruct (json_loads lib text); [destruct He | eauto].
  - destruct (yaml_safe_load lib text) as [v|x]; [destruct He|].
    destruct (exn_kind x); eauto.
    rewrite events_bind in He; cbn [events result fst snd app] in He.
    destruct He as [<-|He]; [now split|].
    destruct (json_loads lib text) as [v|x']; [destruct He|].
    destruct (exn_kind x'); eauto.
    destruct He as [<-|[]]; now split.
Qed.

Lemma null_document_is_a_parse_failure_witness :
  result (format_output Sample.libraries EmptyString None) = PyNone
  /\ result (format_output Sample.libraries "{" None) = PyNone.
Proof.
  split.
  - apply (null_document_is_a_parse_failure Sample.libraries
             "cat /etc/app/empty.yaml" "baseline.yaml" None None false
             EmptyString eq_refl).
    left. left. reflexivity.
  - apply (null_document_is_a_parse_failure Sample.libraries
             "cat /etc/app/broken.yaml" "baseline.yaml" None None false
             "{" eq_refl).
    right. eexists. split; [reflexivity|]. intros _. eexists. reflexivity.
Defined.

(** The five ways in which a cycle ends. *)
Lemma cycle_shape lib command baseline_path output_path format remote :
  exists stages tail,
    Forall (fun ev => is_stage_event ev = true) stages
    /\ events (check_configuration lib command baseline_path output_path
                 format remote)
       = Log INFO "Running configuration check..." :: stages ++ tail
    /\ (tail = [command_failure]
        \/ tail = [parse_failure]
        \/ tail = [baseline_failure]
        \/ (exists b c, tail = [DeepDiffCall b c; no_drift])
        \/ (exists b c d ds,
              DeepDiff b c = d :: ds
              /\ tail = DeepDiffCall b c
                        :: drift_detected
                        :: Log INFO ("Differences: "
                                     ++ str_differences lib (d :: ds))
                        :: match output_path with
                           | Some file =>
                               if PyStr.truthy file
                               then events (save_differences lib (d :: ds)
                                              file)
                               else []
                           | None => []
                           end)).
Proof.
  pose proof (run_command_quiet lib command) as Q1.
  rewrite cycle_events.
  destruct (result (run_command lib command)) as [text|];
    [|exists (events (run_command lib command)), [command_failure]; auto].
  cbv zeta.
  pose proof (format_output_quiet lib text format) as Q2.
  pose proof (load_baseline_quiet lib baseline_path format remote) as Q3.
  destruct (is_None (result (format_output lib text format))).
  { exists (events (run_command lib command)
            ++ events (format_output lib text format)), [parse_failure].
    rewrite <- app_assoc. repeat split; auto using Forall_app.
    apply Forall_app; auto. }
  destruct (is_None (result (load_baseline lib baseline_path format remote))).
  { exists (events (run_command lib command)
            ++ events (format_output lib text format)
            ++ events (load_baseline lib baseline_path format remote)),
           [baseline_failure].
    rewrite <- !app_assoc. repeat split; auto.
    repeat (apply Forall_app; split; auto). }
  exists (events (run_command lib command)
          ++ events (format_output lib text format)
          ++ events (load_baseline lib baseline_path format remote)).
  eexists. split; [repeat (apply Forall_app; split; auto)|].
  rewrite <- !app_assoc. split; [reflexivity|].
  destruct (DeepDiff _ _) as [|d ds] eqn:Ed.
  - right; right; right; left. eauto.
  - right; right; right; right. eauto 6.
Qed.

(** C10: the differences are written to a file only in a cycle that
    records drift and was given an output path other than the empty
    string, and what is written is a difference with at least one entry;
    in such a cycle they are written. *)
Theorem differences_saved_only_on_drift_with_path :
  forall lib command baseline_path output_path format remote file,
    let evs := events (check_configuration lib command baseline_path
                         output_path format remote) in
    (forall d, In (JsonDump file d) evs ->
       output_path = Some file
       /\ PyStr.truthy file = true
       /\ d <> []
       /\ In drift_detected evs)
    /\ (In drift_detected evs ->
        output_path = Some file ->
        PyStr.truthy file = true ->
        exists d, d <> [] /\ In (JsonDump file d) evs).
Proof.
  intros lib command baseline_path output_path format remote file. cbv zeta.
  destruct (cycle_shape lib command baseline_path output_path format remote)
    as (stages & tail & HF & -> & Ht).
  assert (Hs : forall e, is_stage_event e = false ->
             In e (Log INFO "Running configuration check..."
                   :: stages ++ tail) ->
             e <> Log INFO "Running configuration check..." ->
             In e tail).
  { intros e He [H|H] Hne; [congruence|].
    apply in_app_or in H. destruct H as [H|H]; [|assumption].
    now apply not_in_stage in H. }
  split.
  - intros d Hin. apply Hs in Hin; [|reflexivity|discriminate].
    destruct Ht as [->|[->|[->|[(b & c & ->)|(b & c & x & xs & Ed & ->)]]]].
    1-4: repeat (destruct Hin as [Hin|Hin]; [discriminate Hin|]);
         destruct Hin.
    destruct Hin as [Hin|[Hin|[Hin|Hin]]]; try discriminate Hin.
    destruct output_path as [file'|]; [|destruct Hin].
    destruct (PyStr.truthy file') eqn:Et; [|destruct Hin].
    rewrite save_differences_events in Hin.
    destruct Hin as [Hin|[Hin|[]]].
    + injection Hin as -> <-. repeat split; try assumption;
        [discriminate|].
      right. apply in_or_app. right. right. now left.
    + destruct (json_dump lib file' (x :: xs)); discriminate Hin.
  - intros Hin -> Et. apply Hs in Hin; [|reflexivity|discriminate].
    destruct Ht as [->|[->|[->|[(b & c & ->)|(b & c & x & xs & Ed & ->)]]]].
    1-4: repeat (destruct Hin as [Hin|Hin]; [discriminate Hin|]);
         destruct Hin.
    exists (x :: xs). split; [discriminate|].
    right. apply in_or_app. right. rewrite Et, save_differences_events.
    right. right. right. now left.
Qed.

(** * Further properties of the script *)

(** ** Strings *)

Section StringFacts.
Local Open Scope string_scope.

Lemma append_empty_r s : s ++ EmptyString = s.
Proof. induction s as [|c s IH]; simpl; congruence. Qed.

Lemma append_assoc_string a b c : (a ++ b) ++ c = a ++ (b ++ c).
Proof. induction a as [|x a IH]; simpl; congruence. Qed.

Lemma rev_onto_append s : forall acc,
  PyStr.rev_onto s acc = PyStr.rev s ++ acc.
Proof.
  unfold PyStr.rev. induction s as [|c s IH]; intro acc; [reflexivity|].
  simpl. rewrite (IH (String c acc)), (IH (String c EmptyString)).
  now rewrite append_assoc_string.
Qed.

Lemma rev_cons c s :
  PyStr.rev (String c s) = PyStr.rev s ++ String c EmptyString.
Proof. unfold PyStr.rev at 1. simpl. apply rev_onto_append. Qed.

Lemma rev_append a b : PyStr.rev (a ++ b) = PyStr.rev b ++ PyStr.rev a.
Proof.
  induction a as [|c a IH]; simpl.
  - now rewrite append_empty_r.
  - now rewrite !rev_cons, IH, append_assoc_string.
Qed.

Lemma rev_involutive s : PyStr.rev (PyStr.rev s) = s.
Proof.
  induction s as [|c s IH]; [reflexivity|].
  now rewrite rev_cons, rev_append, IH.
Qed.

Lemma lower_append a b :
  PyStr.lower (a ++ b) = PyStr.lower a ++ PyStr.lower b.
Proof. induction a as [|c a IH]; simpl; congruence. Qed.

Lemma prefix_append a b : String.prefix a (a ++ b) = true.
Proof.
  induction a as [|c a IH]; simpl; [now destruct b|].
  destruct (ascii_dec c c); [assumption | congruence].
Qed.

Lemma endswith_append stem ext : PyStr.endswith (stem ++ ext) ext = true.
Proof. unfold PyStr.endswith. rewrite rev_append. apply prefix_append. Qed.

(** ** Stripping *)

Section StripFacts.
Variable one : ascii -> bool.
Variable two : ascii -> ascii -> bool.
Variable three : ascii -> ascii -> ascii -> bool.

Lemma lstrip_with_fixed s :
  PyStr.space_width one two three s = 0 ->
  PyStr.lstrip_with one two three s = s.
Proof.
  destruct s as [|c [|d [|e s3]]]; simpl; try reflexivity;
    destruct (one c); try discriminate; try reflexivity;
    destruct (two c d); try discriminate; try reflexivity;
    destruct (three c d e); try discriminate; reflexivity.
Qed.

Lemma lstrip_with_bounded n : forall s,
  String.length s <= n ->
  PyStr.space_width one two three (PyStr.lstrip_with one two three s) = 0
  /\ exists blank, s = blank ++ PyStr.lstrip_with one two three s.
Proof.
  induction n as [|n IH]; intros s Hn.
  - destruct s; [|simpl in Hn; lia]. split; [reflexivity|].
    now exists EmptyString.
  - destruct s as [|c s1]; [split; [reflexivity | now exists EmptyString]|].
    simpl in Hn. cbn [PyStr.lstrip_with].
    destruct (one c) eqn:E1.
    { destruct (IH s1 ltac:(lia)) as [Hw (blank & Hb)].
      split; [assumption|]. exists (String c blank). simpl. congruence. }
    destruct s1 as [|d s2].
    { split; [simpl; now rewrite E1 | now exists EmptyString]. }
    simpl in Hn. destruct (two c d) eqn:E2.
    { destruct (IH s2 ltac:(lia)) as [Hw (blank & Hb)].
      split; [assumption|].
      exists (String c (String d blank)). simpl. congruence. }
    destruct s2 as [|e s3].
    { split; [simpl; now rewrite E1, E2 | now exists EmptyString]. }
    simpl in Hn. destruct (three c d e) eqn:E3.
    { destruct (IH s3 ltac:(lia)) as [Hw (blank & Hb)].
      split; [assumption|].
      exists (String c (String d (String e blank))). simpl. congruence. }
    split; [simpl; now rewrite E1, E2, E3 | now exists EmptyString].
Qed.

Lemma lstrip_with_stripped s :
  PyStr.space_width one two three (PyStr.lstrip_with one two three s) = 0.
Proof. apply (lstrip_with_bounded (String.length s) s), le_n. Qed.

Lemma lstrip_with_suffix s :
  exists blank, s = blank ++ PyStr.lstrip_with one two three s.
Proof. apply (lstrip_with_bounded (String.length s) s), le_n. Qed.

(** A white-space character at the head of a text stays at the head of
    any text it begins. *)
Lemma space_width_append a b :
  PyStr.space_width one two three a <> 0 ->
  PyStr.space_width one two three (a ++ b) <> 0.
Proof.
  destruct a as [|c [|d [|e a3]]]; simpl; try congruence;
    destruct (one c); try congruence;
    destruct b as [|x [|y b2]]; simpl; try congruence;
    destruct (two c d); congruence.
Qed.

End StripFacts.

Lemma strip_last s : PyStr.ends_with_space (PyStr.strip s) = false.
Proof.
  unfold PyStr.ends_with_space, PyStr.strip, PyStr.rstrip.
  now rewrite rev_involutive, lstrip_with_stripped.
Qed.

Lemma strip_first s : PyStr.starts_with_space (PyStr.strip s) = false.
Proof.
  unfold PyStr.starts_with_space, PyStr.strip, PyStr.rstrip.
  set (t := PyStr.lstrip s).
  destruct (lstrip_with_suffix PyStr.is_space PyStr.is_space2_back
              PyStr.is_space3_back (PyStr.rev t)) as (blank & Hb).
  set (u := PyStr.lstrip_with _ _ _ (PyStr.rev t)) in *.
  apply (f_equal PyStr.rev) in Hb.
  rewrite rev_involutive, rev_append in Hb.
  assert (Ht : PyStr.space_width PyStr.is_space PyStr.is_space2
                 PyStr.is_space3 t = 0)
    by (apply lstrip_with_stripped).
  destruct (Nat.eqb_spec
              (PyStr.space_width PyStr.is_space PyStr.is_space2
                 PyStr.is_space3 (PyStr.rev u)) 0) as [E|E];
    [reflexivity|].
  exfalso. rewrite Hb in Ht. revert Ht. now apply space_width_append.
Qed.

Lemma strip_idempotent s : PyStr.strip (PyStr.strip s) = PyStr.strip s.
Proof.
  pose proof (strip_first s) as Hf. pose proof (strip_last s) as Hl.
  unfold PyStr.starts_with_space in Hf. unfold PyStr.ends_with_space in Hl.
  apply negb_false_iff, Nat.eqb_eq in Hf, Hl.
  unfold PyStr.strip at 1. unfold PyStr.lstrip, PyStr.rstrip.
  rewrite (lstrip_with_fixed _ _ _ _ Hf), (lstrip_with_fixed _ _ _ _ Hl).
  apply rev_involutive.
Qed.

(** ** The format of a baseline, from its name *)

(** X1: with no format given, the name of the baseline selects the format
    by its ending, whatever the case of the letters: a name in [.json]
    selects json, a name in [.yaml] or [.yml] selects yaml; every name
    selects yaml or json. *)
Theorem format_follows_extension :
  forall stem ext,
    (PyStr.lower ext = ".json" -> format_of_path (stem ++ ext) = "json")
    /\ (PyStr.lower ext = ".yaml" \/ PyStr.lower ext = ".yml" ->
        format_of_path (stem ++ ext) = "yaml")
    /\ (format_of_path stem = "yaml" \/ format_of_path stem = "json").
Proof.
  intros stem ext. split; [|split].
  - intro He. apply json_suffix_format.
    rewrite lower_append, He. apply endswith_append.
  - intros He. unfold format_of_path. rewrite lower_append.
    destruct He as [-> | ->]; rewrite endswith_append;
      [reflexivity | now rewrite orb_true_r].
  - unfold format_of_path.
    destruct (orb _ _); [now left|].
    destruct (PyStr.endswith _ ".json"); [now right | now left].
Qed.

End StringFacts.

(** ** The text of the command *)

(** X2: the text that [run_command] returns is the decoded output of a
    sub-process that left with status 0, stripped of the white space,
    Unicode white space included, at both ends: stripping it again changes
    nothing, and it neither starts nor ends with a white-space
    character. *)
Theorem run_command_text_is_stripped :
  forall lib command text,
    result (run_command lib command) = Some text ->
    (exists process output,
       popen_communicate lib command = Return process
       /\ returncode process = 0%Z
       /\ stdout_decode process = Return output
       /\ text = PyStr.strip output)
    /\ PyStr.strip text = text
    /\ PyStr.starts_with_space text = false
    /\ PyStr.ends_with_space text = false.
Proof.
  intros lib command text. unfold run_command. rewrite result_bind.
  unfold call; cbn [events result fst snd].
  assert (Hx : forall e, result (run_command_except e) = None)
    by (intro e; unfold run_command_except; now destruct (exn_kind e)).
  destruct (popen_communicate lib command) as [process|e];
    [|rewrite Hx; discriminate].
  destruct (Z.eqb_spec (returncode process) 0) as [E|E]; cbn [negb].
  - destruct (stdout_decode process) as [output|e] eqn:Eo;
      [|rewrite Hx; discriminate].
    cbn [ret result snd]. intro H; injection H as <-.
    split; [exists process, output; auto|].
    split; [apply strip_idempotent|].
    split; [apply strip_first | apply strip_last].
  - destruct (stderr_decode process); [discriminate | now rewrite Hx].
Qed.

Lemma run_command_text_is_stripped_witness :
  PyStr.strip "web01" = "web01"
  /\ PyStr.ends_with_space "web01" = false.
Proof.
  destruct (run_command_text_is_stripped Sample.libraries
              "cat /etc/hostname" "web01" eq_refl) as (_ & H1 & _ & H2).
  split; assumption.
Defined.

(** The model of [strip] on texts with white space of more than one
    byte: U+00A0 after the text, U+3000 and U+2028 before it. *)
Example strip_unicode :
  PyStr.strip
    (String "227" (String "128" (String "128"
       (String "226" (String "128" (String "168"
          ("web 01" ++ String "194" (String "160" (String "010"
                                                    EmptyString)))))))))
  = "web 01".
Proof. reflexivity. Qed.



(** ** The events of each stage, by kind *)

Lemma count_app p l1 l2 : count p (l1 ++ l2) = count p l1 + count p l2.
Proof. unfold count. now rewrite filter_app, length_app. Qed.

Lemma count_none p l :
  Forall (fun e => p e = false) l -> count p l = 0.
Proof.
  unfold count. induction 1 as [|e l He _ IH]; simpl; [reflexivity|].
  now rewrite He.
Qed.

Lemma run_command_shape lib command :
  exists logs,
    events (run_command lib command) = Popen command :: logs
    /\ Forall (fun e => is_error_log e = true) logs.
Proof.
  unfold run_command. rewrite events_bind.
  unfold call; cbn [events result fst snd app].
  eexists; split; [reflexivity|].
  assert (Hx : forall e, Forall (fun ev => is_error_log ev = true)
                           (events (run_command_except e))).
  { intro e. unfold run_command_except.
    destruct (exn_kind e); repeat constructor. }
  destruct (popen_communicate lib command) as [process|e]; [|apply Hx].
  destruct (negb (returncode process =? 0)%Z).
  - destruct (stderr_decode process); [repeat constructor | apply Hx].
  - destruct (stdout_decode process); [constructor | apply Hx].
Qed.

Lemma format_output_except_log e :
  exists message,
    format_output_except e = ([Log ERROR message], PyNone).
Proof.
  unfold format_output_except. destruct (exn_kind e); eexists; reflexivity.
Qed.

Lemma load_baseline_except_log baseline_path e :
  exists message,
    load_baseline_except baseline_path e = ([Log ERROR message], PyNone).
Proof.
  unfold load_baseline_except. destruct (exn_kind e); eexists; reflexivity.
Qed.

Lemma format_output_shape lib text format :
  Forall (fun e => orb (is_parser_call e) (is_error_log e) = true)
         (events (format_output lib text format))
  /\ (is_None (result (format_output lib text format)) = false ->
      Forall (fun e => is_error_log e = false)
             (events (format_output lib text format))).
Proof.
  unfold format_output, autodetect.
  destruct (format_is format "yaml");
    [|destruct (format_is format "json")];
    rewrite events_bind, result_bind; unfold call;
    cbn [events result fst snd app].
  - destruct (yaml_safe_load lib text) as [v|e].
    + split; repeat constructor.
    + destruct (format_output_except_log e) as (m & ->).
      split; [repeat constructor | discriminate].
  - destruct (json_loads lib text) as [v|e].
    + split; repeat constructor.
    + destruct (format_output_except_log e) as (m & ->).
      split; [repeat constructor | discriminate].
  - destruct (yaml_safe_load lib text) as [v|e];
      [split; repeat constructor|].
    destruct (format_output_except_log e) as (m & Hm).
    destruct (exn_kind e); rewrite ?Hm;
      try (split; [repeat constructor | discriminate]).
    rewrite events_bind, result_bind. cbn [events result fst snd app].
    destruct (json_loads lib text) as [v|e'];
      [split; repeat constructor|].
    destruct (format_output_except_log e') as (m' & Hm').
    destruct (exn_kind e'); rewrite ?Hm';
      split; try discriminate; repeat constructor.
Qed.

Lemma load_baseline_shape lib baseline_path format (remote : bool) :
  exists rest,
    events (load_baseline lib baseline_path format remote)
    = (if remote then RequestsGet baseline_path
       else OpenRead baseline_path) :: rest
    /\ Forall (fun e => orb (is_parser_call e) (is_error_log e) = true) rest
    /\ (is_None (result (load_baseline lib baseline_path format remote))
        = false ->
        Forall (fun e => is_error_log e = false) rest).
Proof.
  pose proof (load_baseline_source lib baseline_path format remote) as L.
  cbv zeta in L. rewrite L. clear L.
  destruct (if remote then requests_get lib baseline_path
            else open_read lib baseline_path) as [content|e].
  - destruct (String.eqb _ "yaml");
      [|destruct (String.eqb _ "json")].
    + destruct (yaml_safe_load lib content) as [v|e].
      * eexists; split; [reflexivity|]. split; repeat constructor.
      * destruct (load_baseline_except_log baseline_path e) as (m & ->).
        eexists; split; [reflexivity|].
        split; [repeat constructor | discriminate].
    + destruct (json_loads lib content) as [v|e].
      * eexists; split; [reflexivity|]. split; repeat constructor.
      * destruct (load_baseline_except_log baseline_path e) as (m & ->).
        eexists; split; [reflexivity|].
        split; [repeat constructor | discriminate].
    + eexists; split; [reflexivity|].
      split; [repeat constructor | discriminate].
  - destruct (load_baseline_except_log baseline_path e) as (m & ->).
    eexists; split; [reflexivity|].
    split; [repeat constructor | discriminate].
Qed.

(** X4: [load_baseline] reads its source exactly once, before anything
    else: over HTTP when [remote] is set and from the file system
    otherwise, never from the other one. *)
Theorem baseline_read_once_from_one_source :
  forall lib baseline_path format (remote : bool),
    exists rest,
      events (load_baseline lib baseline_path format remote)
      = (if remote then RequestsGet baseline_path
         else OpenRead baseline_path) :: rest
      /\ Forall (fun e => is_baseline_read e = false) rest.
Proof.
  intros lib baseline_path format remote.
  destruct (load_baseline_shape lib baseline_path format remote)
    as (rest & He & HF & _).
  exists rest; split; [assumption|].
  eapply Forall_impl; [|exact HF].
  now intros [[]| | | | | | |].
Qed.

(** X5: a result other than None comes with no error record: neither
    [format_output] nor [load_baseline] records an error and returns a
    document.  In the autodetection this covers the text that the YAML
    parser refuses and the JSON parser reads. *)
Theorem no_error_record_on_success :
  forall lib text baseline_path format remote,
    (is_None (result (format_output lib text format)) = false ->
     Forall (fun e => is_error_log e = false)
            (events (format_output lib text format)))
    /\ (is_None (result (load_baseline lib baseline_path format remote))
        = false ->
        Forall (fun e => is_error_log e = false)
               (events (load_baseline lib baseline_path format remote))).
Proof.
  intros lib text baseline_path format remote. split.
  - apply format_output_shape.
  - intro H.
    destruct (load_baseline_shape lib baseline_path format remote)
      as (rest & -> & _ & HF).
    constructor; [now destruct remote | auto].
Qed.

(** X6: with a format other than yaml and json (none, or any other
    string), [format_output] calls the YAML parser first; it calls the JSON
    parser exactly when the YAML parser raised a YAMLError, and whatever
    the YAML parser returns, None included, is the result. *)
Theorem json_is_tried_only_after_a_yaml_error :
  forall lib text format,
    format_is format "yaml" = false ->
    format_is format "json" = false ->
    let evs := events (format_output lib text format) in
    (exists rest, evs = YamlSafeLoad text :: rest)
    /\ (In (JsonLoads text) evs
        <-> exists e, yaml_safe_load lib text = Raise e
                      /\ exn_kind e = YAMLError)
    /\ (forall v, yaml_safe_load lib text = Return v ->
          result (format_output lib text format) = v
          /\ evs = [YamlSafeLoad text]).
Proof.
  intros lib text format Hy Hj. cbv zeta.
  unfold format_output, autodetect. rewrite Hy, Hj.
  rewrite events_bind, result_bind. unfold call.
  cbn [events result fst snd app].
  split; [eauto|].
  destruct (yaml_safe_load lib text) as [v|e].
  - split.
    + split; [intros [H|[]]; discriminate H|].
      intros (e & H & _); discriminate H.
    + intros v' H; injection H as <-. split; reflexivity.
  - split; [|intros v H; discriminate H].
    destruct (format_output_except_log e) as (m & Hm).
    destruct (exn_kind e) eqn:Ek; rewrite ?Hm; cbn [events fst].
    1-3, 5-6:
      (split; [intros [H|[H|[]]]; discriminate H|];
       intros (e' & H & Hk); injection H as <-; congruence).
    split; [eauto|]. intros _.
    rewrite events_bind. cbn [events fst app]. right. now left.
Qed.

Lemma json_is_tried_only_after_a_yaml_error_witness :
  In (JsonLoads "{") (events (format_output Sample.libraries "{" None)).
Proof.
  apply (json_is_tried_only_after_a_yaml_error Sample.libraries "{" None
           eq_refl eq_refl).
  eexists. split; reflexivity.
Defined.

(** ** A format that is neither yaml nor json *)

Lemma load_baseline_unsupported lib baseline_path f (remote : bool) :
  String.eqb f "yaml" = false ->
  String.eqb f "json" = false ->
  result (load_baseline lib baseline_path (Some f) remote) = PyNone
  /\ forall content,
       (if remote then requests_get lib baseline_path
        else open_read lib baseline_path) = Return content ->
       events (load_baseline lib baseline_path (Some f) remote)
       = [if remote then RequestsGet baseline_path
          else OpenRead baseline_path;
          Log ERROR ("Unsupported format: " ++ f)].
Proof.
  intros Hy Hj.
  pose proof (load_baseline_source lib baseline_path (Some f) remote) as L.
  cbv zeta in L. rewrite L, Hy, Hj. clear L.
  destruct (if remote then requests_get lib baseline_path
            else open_read lib baseline_path) as [content|e].
  - split; [reflexivity|]. intros c _. reflexivity.
  - split; [reflexivity|]. intros c H. discriminate H.
Qed.

(** X7: with a format given that is neither yaml nor json (the empty
    string included), the output of the command is still parsed, by
    autodetection, but the baseline is not: once its source is read,
    [load_baseline] calls no parser, records the unsupported format and
    returns None.  No cycle with such a format compares anything or
    records a verdict. *)
Theorem unsupported_format_never_compares :
  forall lib command baseline_path output_path f (remote : bool) text,
    f <> "yaml" ->
    f <> "json" ->
    format_output lib text (Some f) = format_output lib text None
    /\ (forall content,
          (if remote then requests_get lib baseline_path
           else open_read lib baseline_path) = Return content ->
          events (load_baseline lib baseline_path (Some f) remote)
          = [if remote then RequestsGet baseline_path
             else OpenRead baseline_path;
             Log ERROR ("Unsupported format: " ++ f)])
    /\ forall e,
         In e (events (check_configuration lib command baseline_path
                         output_path (Some f) remote)) ->
         is_comparison e = false
         /\ e <> drift_detected
         /\ e <> no_drift.
Proof.
  intros lib command baseline_path output_path f remote text Hy Hj.
  apply String.eqb_neq in Hy, Hj.
  destruct (load_baseline_unsupported lib baseline_path f remote Hy Hj)
    as [Hres Hev].
  split; [|split; [assumption|]].
  - unfold format_output. cbn [format_is]. now rewrite Hy, Hj.
  - intros e. rewrite cycle_events.
    assert (Hs : forall l,
      Forall (fun ev => is_stage_event ev = true) l -> In e l ->
      is_comparison e = false /\ e <> drift_detected /\ e <> no_drift).
    { intros l HF Hin. rewrite Forall_forall in HF.
      specialize (HF e Hin).
      repeat split; [|intros -> ..]; try discriminate HF.
      now destruct e as [[]| | | | | | |]. }
    intros [<-|Hin]; [repeat split; discriminate|].
    apply in_app_or in Hin. destruct Hin as [Hin|Hin];
      [exact (Hs _ (run_command_quiet lib command) Hin)|].
    destruct (result (run_command lib command)) as [t|].
    + cbv zeta in Hin. apply in_app_or in Hin. destruct Hin as [Hin|Hin];
        [exact (Hs _ (format_output_quiet lib t (Some f)) Hin)|].
      destruct (is_None (result (format_output lib t (Some f)))).
      * destruct Hin as [<-|[]]. repeat split; discriminate.
      * apply in_app_or in Hin. destruct Hin as [Hin|Hin];
          [exact (Hs _ (load_baseline_quiet lib baseline_path (Some f)
                          remote) Hin)|].
        rewrite Hres in Hin. cbn [is_None PyNone] in Hin.
        destruct Hin as [<-|[]]. repeat split; discriminate.
    + destruct Hin as [<-|[]]. repeat split; discriminate.
Qed.

Lemma unsupported_format_never_compares_witness :
  events (load_baseline Sample.libraries "baseline.yaml" (Some "xml") false)
  = [OpenRead "baseline.yaml"; Log ERROR "Unsupported format: xml"].
Proof.
  refine (proj1 (proj2 (unsupported_format_never_compares Sample.libraries
                          "cat /etc/hostname" "baseline.yaml" None "xml"
                          false "web01" _ _)) "items: [3, 2, 1]" eq_refl);
    discriminate.
Defined.

(** ** What one cycle does, and how often *)

(** X8: every cycle opens once and runs the command exactly once; it reads
    the baseline at most once, compares at most once and writes the
    differences at most once. *)
Theorem one_of_each_per_cycle :
  forall lib command baseline_path output_path format remote,
    let evs := events (check_configuration lib command baseline_path
                         output_path format remote) in
    count is_cycle_start evs = 1
    /\ count is_popen evs = 1
    /\ count is_baseline_read evs <= 1
    /\ count is_comparison evs <= 1
    /\ count is_json_dump evs <= 1.
Proof.
  intros lib command baseline_path output_path format remote. cbv zeta.
  rewrite cycle_events.
  destruct (run_command_shape lib command) as (logs & -> & Hlogs).
  assert (Q : forall p l,
    (forall e, orb (is_parser_call e) (is_error_log e) = true ->
               p e = false) ->
    Forall (fun e => orb (is_parser_call e) (is_error_log e) = true) l ->
    count p l = 0).
  { intros p l Hp HF. apply count_none.
    eapply Forall_impl; [|exact HF]. exact Hp. }
  assert (Q' : forall p l,
    (forall e, orb (is_parser_call e) (is_error_log e) = true ->
               p e = false) ->
    Forall (fun e => is_error_log e = true) l -> count p l = 0).
  { intros p l Hp HF. apply Q; [assumption|].
    eapply Forall_impl; [|exact HF].
    intros e He. now rewrite He, orb_true_r. }
  assert (P1 : forall e, orb (is_parser_call e) (is_error_log e) = true ->
                         is_cycle_start e = false)
    by (now intros [[]| | | | | | |]).
  assert (P2 : forall e, orb (is_parser_call e) (is_error_log e) = true ->
                         is_popen e = false)
    by (now intros [[]| | | | | | |]).
  assert (P3 : forall e, orb (is_parser_call e) (is_error_log e) = true ->
                         is_baseline_read e = false)
    by (now intros [[]| | | | | | |]).
  assert (P4 : forall e, orb (is_parser_call e) (is_error_log e) = true ->
                         is_comparison e = false)
    by (now intros [[]| | | | | | |]).
  assert (P5 : forall e, orb (is_parser_call e) (is_error_log e) = true ->
                         is_json_dump e = false)
    by (now intros [[]| | | | | | |]).
  change (Log INFO "Running configuration check..."
          :: (Popen command :: logs) ++ ?t)
    with ([Log INFO "Running configuration check..."; Popen command]
          ++ logs ++ t).
  rewrite !(count_app _ _ (logs ++ _)), !(count_app _ logs).
  rewrite (Q' _ logs P1 Hlogs), (Q' _ logs P2 Hlogs), (Q' _ logs P3 Hlogs),
          (Q' _ logs P4 Hlogs), (Q' _ logs P5 Hlogs).
  destruct (result _) as [text|]; [|cbn; lia].
  cbv zeta.
  destruct (format_output_shape lib text format) as [Hfo _].
  rewrite !(count_app _ (events (format_output lib text format))).
  rewrite (Q _ _ P1 Hfo), (Q _ _ P2 Hfo), (Q _ _ P3 Hfo), (Q _ _ P4 Hfo),
          (Q _ _ P5 Hfo).
  destruct (is_None (result (format_output lib text format)));
    [cbn; lia|].
  destruct (load_baseline_shape lib baseline_path format remote)
    as (rest & -> & Hrest & _).
  change ((?r :: rest) ++ ?t) with ([r] ++ rest ++ t).
  rewrite !(count_app _ [_] (rest ++ _)), !(count_app _ rest).
  rewrite (Q _ _ P1 Hrest), (Q _ _ P2 Hrest), (Q _ _ P3 Hrest),
          (Q _ _ P4 Hrest), (Q _ _ P5 Hrest).
  assert (R : count is_cycle_start
                [if remote then RequestsGet baseline_path
                 else OpenRead baseline_path] = 0
              /\ count is_popen
                   [if remote then RequestsGet baseline_path
                    else OpenRead baseline_path] = 0
              /\ count is_baseline_read
                   [if remote then RequestsGet baseline_path
                    else OpenRead baseline_path] = 1
              /\ count is_comparison
                   [if remote then RequestsGet baseline_path
                    else OpenRead baseline_path] = 0
              /\ count is_json_dump
                   [if remote then RequestsGet baseline_path
                    else OpenRead baseline_path] = 0)
    by (destruct remote; repeat split).
  destruct R as (-> & -> & -> & -> & ->).
  destruct (is_None _); [cbn; lia|].
  destruct (DeepDiff _ _) as [|d ds]; [cbn; lia|].
  destruct output_path as [file|]; [|cbn; lia].
  destruct (PyStr.truthy file); [|cbn; lia].
  rewrite save_differences_events.
  destruct (json_dump lib file (d :: ds)); cbn; lia.
Qed.

(** X9: the stages of a cycle come in order.  The baseline is read only
    after the command gave a text that parsed to a document other than
    None; the comparison is called only on the two documents that were
    parsed and loaded, neither of which is None. *)
Theorem stages_come_in_order :
  forall lib command baseline_path output_path format remote,
    let evs := events (check_configuration lib command baseline_path
                         output_path format remote) in
    (forall e, In e evs -> is_baseline_read e = true ->
       exists text,
         result (run_command lib command) = Some text
         /\ is_None (result (format_output lib text format)) = false)
    /\ (forall b c, In (DeepDiffCall b c) evs ->
          exists text,
            result (run_command lib command) = Some text
            /\ c = result (format_output lib text format)
            /\ b = result (load_baseline lib baseline_path format remote)
            /\ is_None b = false
            /\ is_None c = false).
Proof.
  intros lib command baseline_path output_path format remote. cbv zeta.
  rewrite cycle_events.
  destruct (run_command_shape lib command) as (logs & -> & Hlogs).
  rewrite Forall_forall in Hlogs.
  destruct (result (run_command lib command)) as [text|].
  - cbv zeta.
    destruct (format_output_shape lib text format) as [Hfo _].
    rewrite Forall_forall in Hfo.
    destruct (is_None (result (format_output lib text format))) eqn:Ec.
    + split.
      * intros e [<-|[<-|Hin]]; try discriminate.
        apply in_app_or in Hin. destruct Hin as [Hin|Hin].
        { apply Hlogs in Hin. now destruct e as [[]| | | | | | |]. }
        apply in_app_or in Hin. destruct Hin as [Hin|[<-|[]]];
          [|discriminate].
        apply Hfo in Hin. now destruct e as [[]| | | | | | |].
      * intros b c [H|[H|Hin]]; try discriminate H.
        apply in_app_or in Hin. destruct Hin as [Hin|Hin];
          [now apply Hlogs in Hin|].
        apply in_app_or in Hin. destruct Hin as [Hin|[H|[]]];
          [now apply Hfo in Hin | discriminate H].
    + split; [eauto|].
      intros b c [H|[H|Hin]]; try discriminate H.
      apply in_app_or in Hin. destruct Hin as [Hin|Hin];
        [now apply Hlogs in Hin|].
      apply in_app_or in Hin. destruct Hin as [Hin|Hin];
        [now apply Hfo in Hin|].
      destruct (load_baseline_shape lib baseline_path format remote)
        as (rest & He & Hrest & _).
      rewrite He in Hin. rewrite Forall_forall in Hrest.
      destruct Hin as [H|Hin]; [now destruct remote|].
      apply in_app_or in Hin. destruct Hin as [Hin|Hin];
        [now apply Hrest in Hin|].
      destruct (is_None (result (load_baseline lib baseline_path format
                                   remote))) eqn:Eb;
        [destruct Hin as [H|[]]; discriminate H|].
      destruct Hin as [H|Hin].
      * injection H as <- <-. exists text. repeat split; assumption.
      * exfalso. destruct (DeepDiff _ _) as [|d ds].
        { destruct Hin as [H|[]]; discriminate H. }
        destruct Hin as [H|[H|Hin]]; try discriminate H.
        destruct output_path as [file|]; [|destruct Hin].
        destruct (PyStr.truthy file); [|destruct Hin].
        rewrite save_differences_events in Hin.
        destruct Hin as [H|[H|[]]]; [discriminate H|].
        destruct (json_dump lib file (d :: ds)); discriminate H.
  - split.
    + intros e [<-|[<-|Hin]]; try discriminate.
      apply in_app_or in Hin. destruct Hin as [Hin|[<-|[]]];
        [|discriminate].
      apply Hlogs in Hin. now destruct e as [[]| | | | | | |].
    + intros b c [H|[H|Hin]]; try discriminate H.
      apply in_app_or in Hin. destruct Hin as [Hin|[H|[]]];
        [now apply Hlogs in Hin | discriminate H].
Qed.

(** X12: a command that gives no text leaves exactly one error record
    after the call; when the sub-process left with a status other than 0
    and its error output decodes, the record carries that error output. *)
Theorem failed_command_logs_once :
  forall lib command,
    result (run_command lib command) = None ->
    exists message,
      events (run_command lib command) = [Popen command; Log ERROR message]
      /\ forall process error,
           popen_communicate lib command = Return process ->
           returncode process <> 0%Z ->
           stderr_decode process = Return error ->
           message = ("Command execution failed with error: " ++ error)%string.
Proof.
  intros lib command. unfold run_command. rewrite events_bind, result_bind.
  unfold call; cbn [events result fst snd app].
  assert (Hx : forall e, exists m,
    run_command_except e = ([Log ERROR m], None)).
  { intro e. unfold run_command_except.
    destruct (exn_kind e); eexists; reflexivity. }
  destruct (popen_communicate lib command) as [process|e].
  - destruct (Z.eqb_spec (returncode process) 0) as [E|E]; cbn [negb].
    + destruct (stdout_decode process) as [output|e]; [discriminate|].
      destruct (Hx e) as (m & ->). intros _. exists m.
      split; [reflexivity|].
      intros q error Hq Hr. injection Hq as Hq; subst q. contradiction.
    + destruct (stderr_decode process) as [error|e] eqn:Es.
      * intros _. eexists. split; [reflexivity|].
        intros q error' Hq _ He. injection Hq as Hq; subst q.
        rewrite Es in He. injection He as <-. reflexivity.
      * destruct (Hx e) as (m & ->). intros _. exists m.
        split; [reflexivity|].
        intros q error Hq _ He. injection Hq as Hq; subst q.
        rewrite Es in He. discriminate He.
  - destruct (Hx e) as (m & ->). intros _. exists m.
    split; [reflexivity|]. intros q error Hq. discriminate Hq.
Qed.

Lemma failed_command_logs_once_witness :
  exists message,
    events (run_command Sample.libraries "cat /nonexistent")
    = [Popen "cat /nonexistent"; Log ERROR message].
Proof.
  destruct (failed_command_logs_once Sample.libraries "cat /nonexistent"
              eq_refl) as (message & H & _).
  exists message. exact H.
Defined.
